(** * netsuite-windows: the probing code of the port scanner, the network
    discovery tool and the worker management of [BaseTool].

    The Python sources embedded here are
      - [src/tools/port_scanner.py]      (module [PortScanner]),
      - [src/tools/network_discovery.py] (module [NetworkDiscovery]),
      - [src/tools/base_tool.py]         (module [BaseTool]).

    Sockets, DNS and the [ping] subprocess are the outside world: they are
    collected in a [transport] record whose fields give, for every call the
    code makes, what the call returns or which exception it raises.  The
    builtins [int] and [float] applied to the text of an entry field are
    represented by their outcome ([None] stands for [ValueError]).  Timeouts
    are Python floats; the code only forwards them, and [settimeout] tests
    their sign and size, so the finite ones are modelled as rationals.  The
    two texts [float] turns into a value that is not finite ('inf', 'nan')
    have no counterpart among the forms below.

    A character of a string is a code point below 256; Python text holding
    other characters has no counterpart here. *)

From Stdlib Require Import List ZArith QArith String Ascii Bool Arith Lia Permutation.
Import ListNotations.

Local Close Scope Q_scope.
Local Open Scope string_scope.
Local Open Scope list_scope.

(** ** Python values and exceptions *)

(** The exception classes the embedded code distinguishes.  [socket.gaierror]
    is a subclass of [OSError] (which is what [socket.error] names), so an
    [except socket.gaierror] clause placed first takes [Gaierror] and a later
    [except socket.error] clause takes the remaining [OSError]s. *)
Inductive exn : Type :=
| Gaierror
| OSError
| ValueError
| OtherException
| OverflowError
| NameError.

(** Outcome of a Python call: a value, or a raised exception. *)
Inductive py (A : Type) : Type :=
| Returned (a : A)
| Raised (e : exn).
Arguments Returned {A} a.
Arguments Raised {A} e.

Definition host := string.

(** ** The outside world *)

Record transport : Type := {
  (** [sock.connect_ex((host, port))] on a socket whose timeout was set to
      the first argument: the error code ([0] on success), or an exception. *)
  connect_ex : Q -> host -> Z -> py Z;
  (** [socket.gethostbyaddr(ip)[0]]. *)
  gethostbyaddr : host -> py string;
  (** [subprocess.run(['ping', '-n', '1', '-w', ..., ip], ...).stdout]. *)
  ping_stdout : Q -> host -> py string;
  (** What [sock.recv(1024)] delivers, decoded and stripped, after
      [sock.connect((host, port))] and the probe bytes of [_grab_banner];
      [Raised] when any of these calls fails. *)
  recv_banner : Q -> host -> Z -> py string
}.

(** The largest number of seconds CPython converts to its nanosecond clock
    value, a signed 64-bit integer: (2^63 - 1) / 10^9. *)
Definition timeout_limit : Q := (9223372036854775807 # 1000000000)%Q.

(** [sock.settimeout(t)] first converts [t] to nanoseconds and raises
    [OverflowError] when that does not fit; it then raises [ValueError]
    ("Timeout value out of range") for a negative [t].  Where the
    interpreter is built without [poll] the accepted range is smaller still
    (milliseconds must fit a C int); the properties below that need the
    socket to accept the timeout say so by [settimeout t = Returned tt]. *)
Definition settimeout (t : Q) : py unit :=
  if Qle_bool (- timeout_limit)%Q t && Qle_bool t timeout_limit then
    if Qle_bool 0%Q t then Returned tt else Raised ValueError
  else Raised OverflowError.

(** Observations of [stop_event.is_set()] by a run during which the flag is
    never set. *)
Definition never : nat -> bool := fun _ => false.

(** ** String helpers: [str.strip], [in], [split('\n')[0]] *)

Definition is_space (c : ascii) : bool :=
  let n := nat_of_ascii c in
  ((9 <=? n)%nat && (n <=? 13)%nat) || ((28 <=? n)%nat && (n <=? 32)%nat)
  || (n =? 133)%nat || (n =? 160)%nat.

Fixpoint lstrip (s : string) : string :=
  match s with
  | String c rest => if is_space c then lstrip rest else s
  | EmptyString => EmptyString
  end.

Fixpoint rstrip (s : string) : string :=
  match s with
  | String c rest =>
      match rstrip rest with
      | EmptyString => if is_space c then EmptyString else String c EmptyString
      | rest' => String c rest'
      end
  | EmptyString => EmptyString
  end.

Definition strip (s : string) : string := rstrip (lstrip s).

(** Every character of [s] is one that [str.strip] removes. *)
Fixpoint all_space (s : string) : bool :=
  match s with
  | String c rest => is_space c && all_space rest
  | EmptyString => true
  end.

(** [needle in hay]. *)
Fixpoint contains (needle hay : string) : bool :=
  String.prefix needle hay ||
  match hay with
  | String _ rest => contains needle rest
  | EmptyString => false
  end.

(** [s.split('\n')[0]]. *)
Fixpoint first_line (s : string) : string :=
  match s with
  | String c rest =>
      if Ascii.eqb c (ascii_of_nat 10) then EmptyString
      else String c (first_line rest)
  | EmptyString => EmptyString
  end.

(** [range(a, b)] as the list of its elements. *)
Definition py_range (a b : Z) : list Z :=
  map (fun i => (a + Z.of_nat i)%Z) (seq 0 (Z.to_nat (b - a))).

(** ** [src/tools/port_scanner.py] *)

Module PortScanner.

Definition COMMON_PORTS : list Z :=
  [21; 22; 23; 25; 53; 80; 110; 143; 443; 445; 993; 995;
   1433; 3306; 3389; 5432; 5900; 6379; 8080; 8443; 8888; 27017]%Z.

Definition SERVICE_NAMES : list (Z * string) :=
  [(21, "FTP"); (22, "SSH"); (23, "Telnet"); (25, "SMTP"); (53, "DNS");
   (80, "HTTP"); (110, "POP3"); (143, "IMAP"); (443, "HTTPS"); (445, "SMB");
   (993, "IMAPS"); (995, "POP3S"); (1433, "MSSQL"); (3306, "MySQL");
   (3389, "RDP"); (5432, "PostgreSQL"); (5900, "VNC"); (6379, "Redis");
   (8080, "HTTP-Alt"); (8443, "HTTPS-Alt"); (8888, "HTTP-Alt");
   (27017, "MongoDB")]%Z.

(** [SERVICE_NAMES.get(port, 'Unknown')]. *)
Fixpoint service_name (table : list (Z * string)) (port : Z) : string :=
  match table with
  | (p, name) :: rest => if (p =? port)%Z then name else service_name rest port
  | [] => "Unknown"
  end.

(** The fields of the form, as [run_tool] reads them. *)
Record form : Type := {
  host_var : string;
  scan_type_var : string;
  port_from_var : option Z;   (* int(self.port_from_var.get()) *)
  port_to_var : option Z;     (* int(self.port_to_var.get()) *)
  timeout_var : option Q      (* float(self.timeout_var.get()) *)
}.

(** How a call of [run_tool] ends: it writes one ERROR line and returns, it
    hands [(host, ports, timeout)] to [run_in_thread(self._scan_thread, ...)],
    or an exception leaves it before [run_in_thread] is reached. *)
Inductive run_result : Type :=
| Rejected (msg : string)
| Dispatched (h : host) (ports : list Z) (timeout : Q)
| Crashed (e : exn).

Definition parse_timeout (f : option Q) : Q :=
  match f with
  | Some t => t
  | None => 1%Q        (* except ValueError: timeout = 1.0 *)
  end.

Definition select_ports (f : form) : string + list Z :=
  if scan_type_var f =? "common" then inr COMMON_PORTS
  else if scan_type_var f =? "range" then
    match port_from_var f with
    | None => inl "Invalid port range. Use 1-65535."
    | Some port_from =>
        match port_to_var f with
        | None => inl "Invalid port range. Use 1-65535."
        | Some port_to =>
            if ((port_from <? 1) || (65535 <? port_to) || (port_to <? port_from))%Z
            then inl "Invalid port range. Use 1-65535."
            else inr (py_range port_from (port_to + 1))
        end
    end
  else
    match port_from_var f with
    | None => inl "Invalid port number. Use 1-65535."
    | Some port =>
        if ((port <? 1) || (65535 <? port))%Z
        then inl "Invalid port number. Use 1-65535."
        else inr [port]
    end.

(** [run_tool], lines 80-128.  Once host and ports are accepted it computes
    the timeout and writes the header (lines 113-121), and at line 124 it
    evaluates [tk.DISABLED]: this module imports [ttk] only and never binds
    [tk], so [NameError] leaves the method and [run_in_thread] at line 128
    is not reached.  (The inner f-string of line 120 lacks its closing brace;
    it is read here as [f'{ports.start}-{ports.stop-1}'].  Taken as written
    the file does not compile to bytecode and none of its functions runs.) *)
Definition run_tool (f : form) : run_result :=
  let h := strip (host_var f) in
  if h =? "" then Rejected "Please enter a host or IP address."
  else
    match select_ports f with
    | inl msg => Rejected msg
    | inr ports =>
        let timeout := parse_timeout (timeout_var f) in
        Crashed NameError
    end.

(** The dictionary [_scan_port] returns. *)
Record port_result : Type := {
  open : bool;
  error : option string
}.

Definition _scan_port (tr : transport) (h : host) (port : Z) (timeout : Q)
  : py port_result :=
  match settimeout timeout with
  | Raised e => Raised e
  | Returned _ =>
      match connect_ex tr timeout h port with
      | Returned result_open =>
          Returned {| open := (result_open =? 0)%Z; error := None |}
      | Raised Gaierror =>
          Returned {| open := false; error := Some "Hostname resolution failed" |}
      | Raised OSError =>
          Returned {| open := false; error := Some "Could not connect" |}
      | Raised e => Raised e
      end
  end.

(** [result['open']] of a probe that returned. *)
Definition port_is_open (tr : transport) (h : host) (timeout : Q) (port : Z)
  : bool :=
  match _scan_port tr h port timeout with
  | Returned result => open result
  | Raised _ => false
  end.

(** [_grab_banner]: every exception is swallowed and yields [None]; an empty
    banner yields [None]; otherwise the first line. *)
Definition _grab_banner (tr : transport) (h : host) (port : Z) (timeout : Q)
  : option string :=
  match settimeout timeout with
  | Raised _ => None
  | Returned _ =>
      match recv_banner tr timeout h port with
      | Returned banner =>
          if banner =? "" then None else Some (first_line banner)
      | Raised _ => None
      end
  end.

Definition banner_ports : list Z :=
  [21; 22; 25; 80; 110; 143; 443; 3306; 3389; 8080]%Z.

Definition mem (x : Z) (l : list Z) : bool := existsb (Z.eqb x) l.

(** Lines written to the output widget by [_scan_thread]. *)
Inductive output : Type :=
| OutCancelled                        (* "\nScan cancelled by user." *)
| OutOpen (port : Z) (service : string)
| OutBanner (banner : string)
| OutSummary (found : nat)            (* "Scan complete! Found n open port(s)." *)
| OutError (e : exn).                 (* "Error during scan: ..." *)

(** The locals of [_scan_thread], with two counters added: [probed] lists
    the ports handed to [_scan_port], [checks] counts the calls of
    [stop_event.is_set()] made so far. *)
Record scan_state : Type := {
  open_ports : list Z;
  out : list output;
  probed : list Z;
  checks : nat
}.

Definition scan_init : scan_state :=
  {| open_ports := []; out := []; probed := []; checks := 0 |}.

(** The two [if result['open'] ...] statements of the loop body. *)
Definition report_open (tr : transport) (h : host) (timeout : Q) (port : Z)
    (result : port_result) (st1 : scan_state) : scan_state :=
  let st2 :=
    if open result then
      {| open_ports := open_ports st1 ++ [port];
         out := out st1 ++ [OutOpen port (service_name SERVICE_NAMES port)];
         probed := probed st1;
         checks := checks st1 |}
    else st1 in
  if open result && mem port banner_ports then
    match _grab_banner tr h port timeout with
    | Some banner =>
        {| open_ports := open_ports st2;
           out := out st2 ++ [OutBanner (substring 0 100 banner)];
           probed := probed st2;
           checks := checks st2 |}
    | None => st2
    end
  else st2.

(** The [for port in ports] loop.  [stop n] is what the [n]-th call of
    [stop_event.is_set()] returns.  The second component is the exception
    that left the loop, if any. *)
Fixpoint scan_loop (tr : transport) (stop : nat -> bool) (h : host)
    (timeout : Q) (ports : list Z) (st : scan_state)
  : scan_state * option exn :=
  match ports with
  | [] => (st, None)
  | port :: rest =>
      if stop (checks st) then
        ({| open_ports := open_ports st;
            out := out st ++ [OutCancelled];
            probed := probed st;
            checks := S (checks st) |}, None)
      else
        let st1 := {| open_ports := open_ports st;
                      out := out st;
                      probed := probed st ++ [port];
                      checks := S (checks st) |} in
        match _scan_port tr h port timeout with
        | Raised e => (st1, Some e)
        | Returned result =>
            scan_loop tr stop h timeout rest
              (report_open tr h timeout port result st1)
        end
  end.

Definition _scan_thread (tr : transport) (stop : nat -> bool) (h : host)
    (ports : list Z) (timeout : Q) : scan_state :=
  match scan_loop tr stop h timeout ports scan_init with
  | (st, Some e) =>
      {| open_ports := open_ports st;
         out := out st ++ [OutError e];
         probed := probed st;
         checks := checks st |}
  | (st, None) =>
      if stop (checks st) then
        {| open_ports := open_ports st;
           out := out st;
           probed := probed st;
           checks := S (checks st) |}
      else
        {| open_ports := open_ports st;
           out := out st ++ [OutSummary (List.length (open_ports st))];
           probed := probed st;
           checks := S (checks st) |}
  end.

(** The module-level helper [scan_port_multi]: [settimeout] is outside its
    [try], every exception of [connect_ex] yields [(port, False)]. *)
Definition scan_port_multi (tr : transport) (h : host) (port : Z) (timeout : Q)
  : py (Z * bool) :=
  match settimeout timeout with
  | Raised e => Raised e
  | Returned _ =>
      match connect_ex tr timeout h port with
      | Returned result => Returned (port, (result =? 0)%Z)
      | Raised _ => Returned (port, false)
      end
  end.

(** Projections of the output: the OPEN lines with their service label, the
    banner lines, and the closing lines (summary or error). *)
Definition reported_open (o : list output) : list (Z * string) :=
  flat_map (fun x => match x with OutOpen p name => [(p, name)] | _ => [] end) o.

Definition banners (o : list output) : list string :=
  flat_map (fun x => match x with OutBanner b => [b] | _ => [] end) o.

(** A banner line: at most 100 characters, no line feed. *)
Definition banner_ok (b : string) : Prop :=
  (String.length b <= 100)%nat /\
  ~ In (ascii_of_nat 10) (list_ascii_of_string b).

Definition closing (o : list output) : list output :=
  filter (fun x => match x with OutSummary _ | OutError _ => true | _ => false end) o.

End PortScanner.

(** ** [src/tools/network_discovery.py] *)

Module NetworkDiscovery.

(** An element of [hosts_found]: [(ip, hostname)], [hostname] possibly [None]. *)
Definition entry : Type := (host * option string)%type.

(** The fields [run_tool] reads.  [detected_range] is the text [range_var]
    holds after [auto_detect_network()] ran (it is left as it was when the
    detection fails). *)
Record form : Type := {
  range_var : string;
  detected_range : string;
  timeout_var : option Q      (* float(self.timeout_var.get()) *)
}.

Inductive run_result : Type :=
| Rejected (msg : string)
| Dispatched (network_range : string) (timeout : Q).

Definition run_tool (f : form) : run_result :=
  let network_range := strip (range_var f) in
  let network_range :=
    if (network_range =? "") || (network_range =? "auto")
    then strip (detected_range f) else network_range in
  if network_range =? "" then
    Rejected "Please specify a network range (e.g., 192.168.1.0/24)."
  else
    Dispatched network_range
      (match timeout_var f with
       | Some t => t
       | None => 1%Q      (* except ValueError: timeout = 1.0 *)
       end).

(** *** [_ping_host] *)

(** What one call of [_ping_host] does, in order. *)
Inductive event : Type :=
| EvAttempt (port : Z)     (* socket.socket(...) of the attempt on [port] *)
| EvLookup                 (* socket.gethostbyaddr(ip) *)
| EvPing                   (* subprocess.run(['ping', ...]) *)
| EvAppend (e : entry).    (* results.append(e) *)

(** The literal list of the [for port in ...] loop. *)
Definition probe_ports : list Z := [80; 443; 22; 445]%Z.

(** [try: hostname = socket.gethostbyaddr(ip)[0]  except: hostname = None]. *)
Definition lookup_hostname (tr : transport) (ip : host) : option string :=
  match gethostbyaddr tr ip with
  | Returned name => Some name
  | Raised _ => None
  end.

Definition host_is_up (tr : transport) (ip : host) : list event :=
  [EvLookup; EvAppend (ip, lookup_hostname tr ip)].

(** The ICMP fallback after the loop. *)
Definition icmp_fallback (tr : transport) (ip : host) (timeout : Q) : list event :=
  EvPing ::
  match ping_stdout tr timeout ip with
  | Returned stdout =>
      if contains "Reply from" stdout then host_is_up tr ip else []
  | Raised _ => []
  end.

(** The loop over the ports; [stop i] is what [stop_event.is_set()] returns
    in iteration [i].  An exception inside the loop body is swallowed
    ([except: pass]) and the loop goes on with the next port. *)
Fixpoint tcp_loop (tr : transport) (stop : nat -> bool) (ip : host)
    (timeout : Q) (i : nat) (ports : list Z) : list event :=
  match ports with
  | [] => icmp_fallback tr ip timeout
  | port :: rest =>
      if stop i then icmp_fallback tr ip timeout          (* break *)
      else
        EvAttempt port ::
        match settimeout timeout with
        | Raised _ => tcp_loop tr stop ip timeout (S i) rest
        | Returned _ =>
            match connect_ex tr timeout ip port with
            | Returned result =>
                if (result =? 0)%Z then host_is_up tr ip  (* return *)
                else tcp_loop tr stop ip timeout (S i) rest
            | Raised _ => tcp_loop tr stop ip timeout (S i) rest
            end
        end
  end.

Definition _ping_host (tr : transport) (stop : nat -> bool) (ip : host)
    (timeout : Q) : list event :=
  tcp_loop tr stop ip timeout 0 probe_ports.

(** Projections of a trace. *)
Definition appended (trace : list event) : list entry :=
  flat_map (fun ev => match ev with EvAppend e => [e] | _ => [] end) trace.

Definition attempts (trace : list event) : list Z :=
  flat_map (fun ev => match ev with EvAttempt p => [p] | _ => [] end) trace.

Definition pinged (trace : list event) : bool :=
  existsb (fun ev => match ev with EvPing => true | _ => false end) trace.

Definition lookups (trace : list event) : nat :=
  List.length (filter (fun ev => match ev with EvLookup => true | _ => false end) trace).

(** What the transport answers to the attempt on one port: the body of the
    inner [try] reaches [result == 0]. *)
Definition tcp_open (tr : transport) (timeout : Q) (ip : host) (port : Z) : bool :=
  match settimeout timeout with
  | Raised _ => false
  | Returned _ =>
      match connect_ex tr timeout ip port with
      | Returned result => (result =? 0)%Z
      | Raised _ => false
      end
  end.

(** ['Reply from' in result.stdout] of the fallback. *)
Definition ping_replies (tr : transport) (timeout : Q) (ip : host) : bool :=
  match ping_stdout tr timeout ip with
  | Returned stdout => contains "Reply from" stdout
  | Raised _ => false
  end.

(** The host answers on one of the probe ports or to the ping. *)
Definition reachable (tr : transport) (timeout : Q) (ip : host) : bool :=
  existsb (tcp_open tr timeout ip) probe_ports || ping_replies tr timeout ip.

(** The ports of [l] up to and including the first one [f] accepts. *)
Fixpoint upto_first (f : Z -> bool) (l : list Z) : list Z :=
  match l with
  | [] => []
  | p :: rest => if f p then [p] else p :: upto_first f rest
  end.

(** *** [_scan_network] *)

Definition max_threads : nat := 50.

Inductive output : Type :=
| OutCancelled               (* "\nScan cancelled by user." *)
| OutComplete (found : nat). (* "Scan complete! Found n active device(s)." *)

(** Where the scanning thread stands. *)
Inductive pc : Type :=
| AtFor                      (* at the head of [for ip in network.hosts()] *)
| AtWhile (ip : host)        (* at [while len(threads) >= max_threads] *)
| AtJoin                     (* at [for thread in threads: thread.join()] *)
| Finished.

(** The scanning thread, the probe threads it started and the objects they
    share.  Probe threads are numbered in the order they are started. *)
Record state : Type := {
  st_pc : pc;
  st_hosts : list host;             (* hosts the [for] loop has not reached *)
  st_threads : list nat;            (* the local list [threads] *)
  st_alive : list (nat * host);     (* started threads still running, with their [ip] *)
  st_started : nat;                 (* number of threads started *)
  st_results : list entry;          (* [hosts_found] *)
  st_stop : bool;                   (* [self.stop_event] *)
  st_out : list output
}.

(** [hosts] is [network.hosts()] of the parsed range. *)
Definition init (hosts : list host) : state :=
  {| st_pc := AtFor; st_hosts := hosts; st_threads := []; st_alive := [];
     st_started := 0; st_results := []; st_stop := false; st_out := [] |}.

(** [t.is_alive()]. *)
Definition is_alive (s : state) (t : nat) : bool :=
  existsb (fun x => fst x =? t)%nat (st_alive s).

(** Who moves next: the scanning thread executes its next statement, probe
    thread [t] runs [_ping_host] to its end having seen [obs] from the stop
    flag, or the GUI thread calls [stop_scan]. *)
Inductive action : Type :=
| Main
| Exit (t : nat) (obs : nat -> bool)
| Stop.

Definition main_step (k : nat) (s : state) : option state :=
  match st_pc s with
  | AtFor =>
      match st_hosts s with
      | [] =>
          Some {| st_pc := AtJoin; st_hosts := []; st_threads := st_threads s;
                  st_alive := st_alive s; st_started := st_started s;
                  st_results := st_results s; st_stop := st_stop s;
                  st_out := st_out s |}
      | ip :: rest =>
          if st_stop s then                                   (* break *)
            Some {| st_pc := AtJoin; st_hosts := ip :: rest;
                    st_threads := st_threads s; st_alive := st_alive s;
                    st_started := st_started s; st_results := st_results s;
                    st_stop := st_stop s;
                    st_out := st_out s ++ [OutCancelled] |}
          else
            Some {| st_pc := AtWhile ip; st_hosts := rest;
                    st_threads := st_threads s; st_alive := st_alive s;
                    st_started := st_started s; st_results := st_results s;
                    st_stop := st_stop s; st_out := st_out s |}
      end
  | AtWhile ip =>
      if (k <=? List.length (st_threads s))%nat then
        (* threads = [t for t in threads if t.is_alive()] *)
        Some {| st_pc := AtWhile ip; st_hosts := st_hosts s;
                st_threads := filter (is_alive s) (st_threads s);
                st_alive := st_alive s; st_started := st_started s;
                st_results := st_results s; st_stop := st_stop s;
                st_out := st_out s |}
      else
        (* thread.start(); threads.append(thread) *)
        Some {| st_pc := AtFor; st_hosts := st_hosts s;
                st_threads := st_threads s ++ [st_started s];
                st_alive := st_alive s ++ [(st_started s, ip)];
                st_started := S (st_started s);
                st_results := st_results s; st_stop := st_stop s;
                st_out := st_out s |}
  | AtJoin =>
      if existsb (is_alive s) (st_threads s) then None        (* join blocks *)
      else
        Some {| st_pc := Finished; st_hosts := st_hosts s;
                st_threads := st_threads s; st_alive := st_alive s;
                st_started := st_started s; st_results := st_results s;
                st_stop := st_stop s;
                st_out := st_out s ++
                  (if st_stop s then []
                   else [OutComplete (List.length (st_results s))]) |}
  | Finished => None
  end.

(** The stop flag is only set while a scan runs, never cleared: a thread
    that ends while it is unset has seen it unset at every check. *)
Definition exit_step (tr : transport) (timeout : Q) (t : nat)
    (obs : nat -> bool) (s : state) : option state :=
  match find (fun x => fst x =? t)%nat (st_alive s) with
  | None => None
  | Some (_, ip) =>
      Some {| st_pc := st_pc s; st_hosts := st_hosts s;
              st_threads := st_threads s;
              st_alive := filter (fun x => negb (fst x =? t)%nat) (st_alive s);
              st_started := st_started s;
              st_results := st_results s ++
                appended (_ping_host tr (fun i => st_stop s && obs i) ip timeout);
              st_stop := st_stop s; st_out := st_out s |}
  end.

Definition step (k : nat) (tr : transport) (timeout : Q) (a : action)
    (s : state) : option state :=
  match a with
  | Main => main_step k s
  | Exit t obs => exit_step tr timeout t obs s
  | Stop =>
      Some {| st_pc := st_pc s; st_hosts := st_hosts s;
              st_threads := st_threads s; st_alive := st_alive s;
              st_started := st_started s; st_results := st_results s;
              st_stop := true; st_out := st_out s |}
  end.

Fixpoint exec (k : nat) (tr : transport) (timeout : Q) (sched : list action)
    (s : state) : option state :=
  match sched with
  | [] => Some s
  | a :: rest =>
      match step k tr timeout a s with
      | Some s' => exec k tr timeout rest s'
      | None => None
      end
  end.

(** [_scan_network] on the hosts of the range, under the interleaving [sched]. *)
Definition _scan_network (tr : transport) (timeout : Q) (hosts : list host)
    (sched : list action) : option state :=
  exec max_threads tr timeout sched (init hosts).

(** What the probe of [ip] appends when it never sees the stop flag. *)
Definition probe (tr : transport) (timeout : Q) (ip : host) : list entry :=
  appended (_ping_host tr never ip timeout).

(** The host taken from the iterator for which no thread is started yet. *)
Definition pending (s : state) : list host :=
  match st_pc s with
  | AtWhile ip => [ip]
  | _ => []
  end.

(** Hosts whose probe has not ended: those of the running threads, the
    pending one and those the loop has not reached. *)
Definition outstanding (s : state) : list host :=
  map snd (st_alive s) ++ pending s ++ st_hosts s.

(** Bookkeeping of [_scan_network] with bound [k] on [n] hosts. *)
Record consistent (k n : nat) (s : state) : Prop := {
  inv_listed : forall x, In x (st_alive s) -> In (fst x) (st_threads s);
  inv_bound : (List.length (st_threads s) <= k)%nat;
  inv_nodup : NoDup (map fst (st_alive s));
  inv_fresh : forall x, In x (st_alive s) -> (fst x < st_started s)%nat;
  inv_joined : st_pc s = Finished -> st_alive s = [];
  inv_count :
    (st_started s + List.length (pending s) + List.length (st_hosts s) = n)%nat;
  inv_results :
    (List.length (st_results s) + List.length (st_alive s) <= st_started s)%nat
}.

(** While the stop flag is unset, [hosts_found] together with what the
    outstanding probes will append is what probing every host appends. *)
Definition complete (tr : transport) (timeout : Q) (hosts : list host)
    (s : state) : Prop :=
  st_stop s = false ->
  Permutation (st_results s ++ flat_map (probe tr timeout) (outstanding s))
              (flat_map (probe tr timeout) hosts) /\
  (st_pc s = AtJoin \/ st_pc s = Finished -> st_hosts s = []).

(** The hosts are handed to the threads in the order of the range: those
    taken so far are an initial segment, thread number [t] probes host
    number [t], and only hosts of the range enter [hosts_found]. *)
Record in_order (tr : transport) (hosts : list host) (s : state) : Prop := {
  ord_split :
    exists done, hosts = done ++ pending s ++ st_hosts s /\
                 List.length done = st_started s;
  ord_alive :
    forall x, In x (st_alive s) -> nth_error hosts (fst x) = Some (snd x);
  ord_results :
    forall e, In e (st_results s) ->
              In (fst e) hosts /\ snd e = lookup_hostname tr (fst e)
}.

(** What [_scan_network] has written, by the place it has reached. *)
Definition reported (tr : transport) (timeout : Q) (hosts : list host)
    (s : state) : Prop :=
  match st_pc s with
  | AtFor | AtWhile _ => st_out s = []
  | AtJoin =>
      st_out s = [] \/
      (st_out s = [OutCancelled] /\ st_stop s = true /\ st_hosts s <> [])
  | Finished =>
      st_out s = [] \/
      (st_out s = [OutCancelled] /\ st_hosts s <> []) \/
      (st_out s = [OutComplete (List.length (st_results s))] /\
       Permutation (st_results s) (flat_map (probe tr timeout) hosts))
  end.

End NetworkDiscovery.

(** ** [src/tools/base_tool.py] *)

Module BaseTool.

(** Calls on the shared objects, in the order they happen. *)
Inductive event : Type :=
| EvClear                 (* self.stop_event.clear() *)
| EvSet                   (* self.stop_event.set() *)
| EvStart (t : nat).      (* self.worker_thread.start() *)

(** The fields of a tool that [run_in_thread], [stop] and [is_running] use.
    Threads are numbered in the order they are created. *)
Record tool : Type := {
  worker_thread : option nat;
  stop_event : bool;
  alive : list nat;          (* threads whose [is_alive()] is true *)
  created : nat;             (* number of [threading.Thread] objects created *)
  log : list event
}.

(** [__init__]. *)
Definition init : tool :=
  {| worker_thread := None; stop_event := false; alive := [];
     created := 0; log := [] |}.

(** [self.worker_thread and self.worker_thread.is_alive()]. *)
Definition is_running (s : tool) : bool :=
  match worker_thread s with
  | Some t => existsb (Nat.eqb t) (alive s)
  | None => false
  end.

Definition run_in_thread (s : tool) : bool * tool :=
  if is_running s then (false, s)
  else
    (true,
     {| worker_thread := Some (created s);
        stop_event := false;
        alive := created s :: alive s;
        created := S (created s);
        log := log s ++ [EvClear; EvStart (created s)] |}).

Definition stop (s : tool) : tool :=
  {| worker_thread := worker_thread s; stop_event := true;
     alive := alive s; created := created s; log := log s ++ [EvSet] |}.

(** The GUI thread calls [run_in_thread] or [stop]; a running thread ends. *)
Inductive action : Type :=
| CallRun
| CallStop
| ThreadEnds (t : nat).

Definition step (a : action) (s : tool) : option tool :=
  match a with
  | CallRun => Some (snd (run_in_thread s))
  | CallStop => Some (stop s)
  | ThreadEnds t =>
      if existsb (Nat.eqb t) (alive s) then
        Some {| worker_thread := worker_thread s; stop_event := stop_event s;
                alive := filter (fun u => negb (u =? t)%nat) (alive s);
                created := created s; log := log s |}
      else None
  end.

Fixpoint exec (sched : list action) (s : tool) : option tool :=
  match sched with
  | [] => Some s
  | a :: rest =>
      match step a s with
      | Some s' => exec rest s'
      | None => None
      end
  end.

(** The part of the log that follows the start of thread [t]. *)
Fixpoint since_start (t : nat) (l : list event) : option (list event) :=
  match l with
  | [] => None
  | ev :: rest =>
      match since_start t rest with
      | Some tail => Some tail
      | None =>
          match ev with
          | EvStart u => if (u =? t)%nat then Some rest else None
          | _ => None
          end
      end
  end.

(** Only the current worker can be alive, and the stop flag is set exactly
    when [set] was called after the current worker was started. *)
Record sound (s : tool) : Prop := {
  snd_alive : forall t, In t (alive s) -> worker_thread s = Some t;
  snd_nodup : NoDup (alive s);
  snd_flag :
    forall t, worker_thread s = Some t ->
    exists tail, since_start t (log s) = Some tail /\
                 (stop_event s = true <-> In EvSet tail)
}.

(** Number of [start] calls in the log. *)
Definition starts (l : list event) : nat :=
  List.length (filter (fun ev => match ev with EvStart _ => true | _ => false end) l).

(** Threads are numbered as they are created, every created thread was
    started, and [worker_thread] is the one created last. *)
Record numbered (s : tool) : Prop := {
  num_starts : starts (log s) = created s;
  num_worker :
    worker_thread s =
      match created s with
      | O => None
      | S t => Some t
      end
}.

End BaseTool.

(** ** Concrete transports and inputs used below *)

Module Fixtures.

(** Nothing listens anywhere: every connect is refused at once (Windows
    reports [WSAECONNREFUSED = 10061]), no ping reply, no PTR record. *)
Definition refusing : transport :=
  {| connect_ex := fun _ _ _ => Returned 10061%Z;
     gethostbyaddr := fun _ => Raised OSError;
     ping_stdout := fun _ _ => Returned "Request timed out.";
     recv_banner := fun _ _ _ => Raised OSError |}.

(** Every connection attempt succeeds; reverse lookups fail. *)
Definition accepting : transport :=
  {| connect_ex := fun _ _ _ => Returned 0%Z;
     gethostbyaddr := fun _ => Raised OSError;
     ping_stdout := fun _ _ => Returned "Request timed out.";
     recv_banner := fun _ _ _ => Raised OSError |}.

(** Only port 443 accepts; the address has a PTR record. *)
Definition https_only : transport :=
  {| connect_ex := fun _ _ port =>
       if (port =? 443)%Z then Returned 0%Z else Returned 10061%Z;
     gethostbyaddr := fun _ => Returned "router.lan";
     ping_stdout := fun _ _ => Returned "Request timed out.";
     recv_banner := fun _ _ _ => Raised OSError |}.

(** The discovery form with an unreadable timeout field. *)
Definition form_bad_timeout : NetworkDiscovery.form :=
  {| NetworkDiscovery.range_var := "192.168.1.0/24";
     NetworkDiscovery.detected_range := "";
     NetworkDiscovery.timeout_var := None |}.

(** The same form with the timeout field holding [-5]. *)
Definition form_negative_timeout : NetworkDiscovery.form :=
  {| NetworkDiscovery.range_var := "192.168.1.0/24";
     NetworkDiscovery.detected_range := "";
     NetworkDiscovery.timeout_var := Some (-5 # 1)%Q |}.

(** A single-port request for port 80. *)
Definition form_single : PortScanner.form :=
  {| PortScanner.host_var := "127.0.0.1";
     PortScanner.scan_type_var := "single";
     PortScanner.port_from_var := Some 80%Z;
     PortScanner.port_to_var := Some 1024%Z;
     PortScanner.timeout_var := Some 1%Q |}.

(** A range request with the bounds swapped. *)
Definition form_inverted_range : PortScanner.form :=
  {| PortScanner.host_var := "10.0.0.1";
     PortScanner.scan_type_var := "range";
     PortScanner.port_from_var := Some 443%Z;
     PortScanner.port_to_var := Some 80%Z;
     PortScanner.timeout_var := Some 1%Q |}.

(** Only the host 10.0.0.1 accepts connections. *)
Definition only_gateway : transport :=
  {| connect_ex := fun _ h _ =>
       if h =? "10.0.0.1" then Returned 0%Z else Returned 10061%Z;
     gethostbyaddr := fun _ => Returned "gateway.lan";
     ping_stdout := fun _ _ => Returned "Request timed out.";
     recv_banner := fun _ _ _ => Raised OSError |}.

(** A well-formed range request for ports 20..25. *)
Definition form_range : PortScanner.form :=
  {| PortScanner.host_var := " 10.0.0.1 ";
     PortScanner.scan_type_var := "range";
     PortScanner.port_from_var := Some 20%Z;
     PortScanner.port_to_var := Some 25%Z;
     PortScanner.timeout_var := Some 1%Q |}.

(** The host field holds blanks and a tab only. *)
Definition form_blank_host : PortScanner.form :=
  {| PortScanner.host_var := String " " (String (ascii_of_nat 9) " ");
     PortScanner.scan_type_var := "common";
     PortScanner.port_from_var := Some 1%Z;
     PortScanner.port_to_var := Some 1024%Z;
     PortScanner.timeout_var := Some 1%Q |}.

(** The stop flag is unset at the first two checks and set from the third. *)
Definition stop_at_third : nat -> bool := fun n => (2 <=? n)%nat.

(** The stop flag is seen set at every check. *)
Definition always : nat -> bool := fun _ => true.

(** Two hosts; both threads are started, the second one ends first. *)
Definition two_hosts : list host := ["10.0.0.1"; "10.0.0.2"].

Definition second_ends_first : list NetworkDiscovery.action :=
  [NetworkDiscovery.Main; NetworkDiscovery.Main;
   NetworkDiscovery.Main; NetworkDiscovery.Main;
   NetworkDiscovery.Exit 1 never; NetworkDiscovery.Exit 0 never;
   NetworkDiscovery.Main; NetworkDiscovery.Main].

Definition first_ends_first : list NetworkDiscovery.action :=
  [NetworkDiscovery.Main; NetworkDiscovery.Main;
   NetworkDiscovery.Main; NetworkDiscovery.Main;
   NetworkDiscovery.Exit 0 never; NetworkDiscovery.Exit 1 never;
   NetworkDiscovery.Main; NetworkDiscovery.Main].

(** Stop is pressed while the first probe runs: the second host is never
    given a thread. *)
Definition stopped_early : list NetworkDiscovery.action :=
  [NetworkDiscovery.Main; NetworkDiscovery.Main; NetworkDiscovery.Stop;
   NetworkDiscovery.Main; NetworkDiscovery.Exit 0 always;
   NetworkDiscovery.Main].

End Fixtures.

(** * Properties *)

(** ** Port scanner *)

Section PortScannerFacts.

Import PortScanner.

Lemma settimeout_negative (t : Q) :
  Qle_bool 0%Q t = false -> exists e, settimeout t = Raised e.
Proof.
  unfold settimeout. intros ->.
  destruct (Qle_bool (- timeout_limit) t && Qle_bool t timeout_limit);
    eexists; reflexivity.
Qed.

Lemma py_range_bounds (a b x : Z) :
  In x (py_range a b) -> (a <= x < b)%Z.
Proof.
  unfold py_range. rewrite in_map_iff.
  intros [i [<- Hi]]. apply in_seq in Hi. lia.
Qed.

Lemma COMMON_PORTS_valid :
  Forall (fun p => (1 <= p <= 65535)%Z) COMMON_PORTS.
Proof. unfold COMMON_PORTS. repeat constructor; lia. Qed.

Lemma select_ports_valid (f : form) (ports : list Z) :
  select_ports f = inr ports ->
  Forall (fun p => (1 <= p <= 65535)%Z) ports.
Proof.
  unfold select_ports.
  destruct (scan_type_var f =? "common").
  - intros H. inversion H. apply COMMON_PORTS_valid.
  - destruct (scan_type_var f =? "range").
    + destruct (port_from_var f) as [a|]; [|discriminate].
      destruct (port_to_var f) as [b|]; [|discriminate].
      destruct ((a <? 1) || (65535 <? b) || (b <? a))%Z eqn:E; [discriminate|].
      intros H. inversion H. subst ports. clear H.
      apply orb_false_elim in E. destruct E as [E E3].
      apply orb_false_elim in E. destruct E as [E1 E2].
      apply Z.ltb_ge in E1, E2, E3.
      apply Forall_forall. intros x Hx. apply py_range_bounds in Hx. lia.
    + destruct (port_from_var f) as [p|]; [|discriminate].
      destruct ((p <? 1) || (65535 <? p))%Z eqn:E; [discriminate|].
      intros H. inversion H. subst ports.
      apply orb_false_elim in E. destruct E as [E1 E2].
      apply Z.ltb_ge in E1, E2.
      constructor; [lia | constructor].
Qed.

(** C7 (confirmed).  A range request with a bound outside 1..65535 or with
    from > to, and a single-port request with a port outside 1..65535, make
    [run_tool] write its error line and return: its result is [Rejected],
    which carries nothing to scan, and the message is the port message
    whenever the host field is filled in.  Conversely whatever [run_tool]
    hands to [_scan_thread] contains only ports within 1..65535. *)
Theorem C7_invalid_ports_rejected_before_dispatch :
  forall f : form,
    (scan_type_var f = "range" /\
       (exists a b, port_from_var f = Some a /\ port_to_var f = Some b /\
          ~ (1 <= a <= 65535 /\ 1 <= b <= 65535 /\ a <= b)%Z)) \/
    (scan_type_var f <> "common" /\ scan_type_var f <> "range" /\
       (exists p, port_from_var f = Some p /\ ~ (1 <= p <= 65535)%Z)) ->
    (exists msg, run_tool f = Rejected msg /\
       (strip (host_var f) <> "" ->
          msg = "Invalid port range. Use 1-65535." \/
          msg = "Invalid port number. Use 1-65535.")) /\
    (forall h ports timeout, run_tool f <> Dispatched h ports timeout).
Proof.
  intros f H.
  assert (Hsel : exists msg, select_ports f = inl msg /\
             (msg = "Invalid port range. Use 1-65535." \/
              msg = "Invalid port number. Use 1-65535.")).
  { unfold select_ports.
    destruct H as [[Hty [a [b [Ha [Hb Hbad]]]]] | [Hc [Hr [p [Hp Hbad]]]]].
    - rewrite Hty. simpl. rewrite Ha, Hb.
      destruct ((a <? 1) || (65535 <? b) || (b <? a))%Z eqn:E.
      + eexists; split; [reflexivity | now left].
      + exfalso. apply Hbad.
        apply orb_false_elim in E. destruct E as [E E3].
        apply orb_false_elim in E. destruct E as [E1 E2].
        apply Z.ltb_ge in E1, E2, E3. lia.
    - apply String.eqb_neq in Hc, Hr. rewrite Hc, Hr, Hp.
      destruct ((p <? 1) || (65535 <? p))%Z eqn:E.
      + eexists; split; [reflexivity | now right].
      + exfalso. apply Hbad.
        apply orb_false_elim in E. destruct E as [E1 E2].
        apply Z.ltb_ge in E1, E2. lia. }
  destruct Hsel as [msg [Hsel Hmsg]].
  unfold run_tool. rewrite Hsel.
  destruct (strip (host_var f) =? "") eqn:Eh.
  - split.
    + eexists; split; [reflexivity|].
      apply String.eqb_eq in Eh. intros Hne. contradiction.
    + intros; discriminate.
  - split.
    + exists msg. split; [reflexivity | intros _; exact Hmsg].
    + intros; discriminate.
Qed.

Lemma C7_witness :
  exists msg, run_tool Fixtures.form_inverted_range = Rejected msg.
Proof.
  destruct (C7_invalid_ports_rejected_before_dispatch
              Fixtures.form_inverted_range) as [[msg [Hrun _]] _].
  - left. split; [reflexivity|].
    exists 443%Z, 80%Z. split; [reflexivity|]. split; [reflexivity|]. lia.
  - exists msg. exact Hrun.
Defined.

(** C2 (corrected).  [_scan_port] does not classify a failed connect as
    timeout or refused.  When [settimeout] accepts the timeout, the result
    is decided by how [connect_ex] ends: a returned code gives
    [open = (code == 0)] and [error = None] whatever the code is; a
    resolution error gives "Hostname resolution failed"; another socket
    error gives "Could not connect"; any other exception leaves the
    function.  When [settimeout] raises, its exception leaves the function
    and there is no result at all. *)
Theorem C2_scan_port_error_field :
  forall (tr : transport) (h : host) (port : Z) (timeout : Q),
    (settimeout timeout = Returned tt ->
     _scan_port tr h port timeout =
       match connect_ex tr timeout h port with
       | Returned code => Returned {| open := (code =? 0)%Z; error := None |}
       | Raised Gaierror =>
           Returned {| open := false; error := Some "Hostname resolution failed" |}
       | Raised OSError =>
           Returned {| open := false; error := Some "Could not connect" |}
       | Raised e => Raised e
       end) /\
    (forall e, settimeout timeout = Raised e ->
               _scan_port tr h port timeout = Raised e).
Proof.
  intros tr h port timeout. unfold _scan_port. split.
  - intros ->.
    destruct (connect_ex tr timeout h port) as [code|[]]; reflexivity.
  - intros e ->. reflexivity.
Qed.

Lemma C2_witness :
  settimeout (1 # 2)%Q = Returned tt /\
  _scan_port Fixtures.https_only "localhost" 443%Z (1 # 2)%Q
    = Returned {| open := true; error := None |}.
Proof.
  split; [reflexivity|].
  exact (proj1 (C2_scan_port_error_field Fixtures.https_only "localhost"
                  443%Z (1 # 2)%Q) eq_refl).
Defined.

(** Counterexample to C2 as stated: nothing listens on localhost:9999 and
    the connect is refused; the result has [open = False] and no error at
    all, neither a refused nor a timeout classification. *)
Lemma C2_counterexample :
  _scan_port Fixtures.refusing "localhost" 9999%Z (1 # 2)%Q
    = Returned {| open := false; error := None |} /\
  ~ (exists r e,
       _scan_port Fixtures.refusing "localhost" 9999%Z (1 # 2)%Q = Returned r /\
       error r = Some e).
Proof.
  split; [reflexivity|].
  intros [r [e [Hr He]]]. vm_compute in Hr. inversion Hr. subst r.
  discriminate He.
Qed.

End PortScannerFacts.

(** ** Configuration *)

(** C4 (corrected).  The discovery tool does not validate its timeout and
    takes no concurrency setting.  The timeout its scan is started with is
    the parsed field as it is, of any sign, and the default 1.0 when the
    field does not parse; and the scan always runs with the constant bound
    50, whatever the number of hosts. *)
Theorem C4_timeout_taken_as_parsed :
  forall g : NetworkDiscovery.form,
    (forall r t,
        NetworkDiscovery.run_tool g = NetworkDiscovery.Dispatched r t ->
        t = match NetworkDiscovery.timeout_var g with
            | Some q => q
            | None => 1%Q
            end) /\
    (forall tr timeout hosts sched,
        NetworkDiscovery._scan_network tr timeout hosts sched
        = NetworkDiscovery.exec 50 tr timeout sched (NetworkDiscovery.init hosts)).
Proof.
  intros g. split.
  - intros r t. unfold NetworkDiscovery.run_tool.
    match goal with |- context [if ?c then _ else _] => destruct c end;
      [discriminate|].
    intros H. now inversion H.
  - reflexivity.
Qed.

Lemma C4_witness :
  NetworkDiscovery.run_tool Fixtures.form_negative_timeout
    = NetworkDiscovery.Dispatched "192.168.1.0/24" (-5 # 1)%Q /\
  (-5 # 1)%Q
    = match NetworkDiscovery.timeout_var Fixtures.form_negative_timeout with
      | Some q => q
      | None => 1%Q
      end.
Proof.
  split; [reflexivity|].
  exact (proj1 (C4_timeout_taken_as_parsed Fixtures.form_negative_timeout)
           "192.168.1.0/24" (-5 # 1)%Q eq_refl).
Defined.

(** Counterexample to C4 as stated: a timeout field that does not parse is
    replaced by 1.0 without any error and the discovery scan is started; a
    negative timeout is accepted and the scan is started with it. *)
Lemma C4_counterexample :
  NetworkDiscovery.timeout_var Fixtures.form_bad_timeout = None /\
  NetworkDiscovery.run_tool Fixtures.form_bad_timeout
    = NetworkDiscovery.Dispatched "192.168.1.0/24" 1%Q /\
  NetworkDiscovery.run_tool Fixtures.form_negative_timeout
    = NetworkDiscovery.Dispatched "192.168.1.0/24" (-5 # 1)%Q /\
  ~ (0 < -5 # 1)%Q.
Proof.
  repeat split. intros H. discriminate H.
Qed.

(** ** [_ping_host] *)

Section PingHostFacts.

Import NetworkDiscovery.

Variable tr : transport.
Variable ip : host.
Variable timeout : Q.

Local Abbreviation is_open := (tcp_open tr timeout ip).
Local Abbreviation found := [(ip, lookup_hostname tr ip)].

Lemma icmp_fallback_eq :
  icmp_fallback tr ip timeout =
    EvPing :: (if ping_replies tr timeout ip then host_is_up tr ip else []).
Proof.
  unfold icmp_fallback, ping_replies.
  destruct (ping_stdout tr timeout ip); reflexivity.
Qed.

Lemma icmp_fallback_attempts : attempts (icmp_fallback tr ip timeout) = [].
Proof.
  rewrite icmp_fallback_eq. destruct (ping_replies tr timeout ip); reflexivity.
Qed.

Lemma icmp_fallback_pinged : pinged (icmp_fallback tr ip timeout) = true.
Proof. rewrite icmp_fallback_eq. reflexivity. Qed.

Lemma icmp_fallback_appended :
  appended (icmp_fallback tr ip timeout) =
    if ping_replies tr timeout ip then found else [].
Proof.
  rewrite icmp_fallback_eq. destruct (ping_replies tr timeout ip); reflexivity.
Qed.

(** One iteration of the loop, with the inner [try] summarised by [tcp_open]. *)
Lemma tcp_loop_cons (stop : nat -> bool) (i : nat) (port : Z) (rest : list Z) :
  tcp_loop tr stop ip timeout i (port :: rest) =
    if stop i then icmp_fallback tr ip timeout
    else EvAttempt port ::
         (if is_open port then host_is_up tr ip
          else tcp_loop tr stop ip timeout (S i) rest).
Proof.
  unfold tcp_open. simpl.
  destruct (stop i); [reflexivity|].
  destruct (settimeout timeout); [|reflexivity].
  destruct (connect_ex tr timeout ip port) as [code|e]; [|reflexivity].
  destruct (code =? 0)%Z; reflexivity.
Qed.

(** No path through [_ping_host] appends twice. *)
Lemma tcp_loop_appends_once (stop : nat -> bool) (ports : list Z) :
  forall i, (List.length (appended (tcp_loop tr stop ip timeout i ports)) <= 1)%nat.
Proof.
  induction ports as [|port rest IH]; intros i.
  - cbn [tcp_loop]. rewrite icmp_fallback_appended.
    destruct (ping_replies tr timeout ip); simpl; lia.
  - rewrite tcp_loop_cons. destruct (stop i).
    + rewrite icmp_fallback_appended.
      destruct (ping_replies tr timeout ip); simpl; lia.
    + destruct (is_open port); simpl; [lia | apply IH].
Qed.

(** The attempted ports are an initial segment of the list, in its order. *)
Lemma tcp_loop_attempts_prefix (stop : nat -> bool) (ports : list Z) :
  forall i, exists rest,
    ports = attempts (tcp_loop tr stop ip timeout i ports) ++ rest.
Proof.
  induction ports as [|port rest IH]; intros i.
  - exists []. cbn [tcp_loop]. now rewrite icmp_fallback_attempts.
  - rewrite tcp_loop_cons. destruct (stop i).
    + rewrite icmp_fallback_attempts. now exists (port :: rest).
    + destruct (is_open port).
      * now exists rest.
      * destruct (IH (S i)) as [rest' Hrest]. exists rest'.
        simpl. now rewrite <- Hrest.
Qed.

(** A successful attempt is the last one: the ports before it failed, the
    host is looked up and appended, and there is no ping. *)
Lemma tcp_loop_first_success (stop : nat -> bool) (ports : list Z) (p : Z) :
  forall i,
    let trace := tcp_loop tr stop ip timeout i ports in
    In p (attempts trace) -> is_open p = true ->
    exists before,
      attempts trace = before ++ [p] /\
      forallb (fun q => negb (is_open q)) before = true /\
      appended trace = found /\
      lookups trace = 1%nat /\
      pinged trace = false.
Proof.
  induction ports as [|port rest IH]; intros i trace Hin Hp; subst trace.
  - cbn [tcp_loop] in Hin. rewrite icmp_fallback_attempts in Hin. contradiction.
  - rewrite tcp_loop_cons in *. destruct (stop i).
    + rewrite icmp_fallback_attempts in Hin. contradiction.
    + destruct (is_open port) eqn:Eport.
      * simpl in Hin. destruct Hin as [<-|[]].
        exists []. repeat split; reflexivity.
      * simpl in Hin. destruct Hin as [<-|Hin]; [congruence|].
        destruct (IH (S i) Hin Hp) as [before [Ha [Hb [Hc [Hd He]]]]].
        exists (port :: before). simpl. rewrite Ha, Eport.
        repeat split; assumption.
Qed.

(** While the stop flag stays unset the loop tries the ports up to the first
    one that answers, and reaches the ping exactly when none answers. *)
Lemma tcp_loop_unstopped (stop : nat -> bool) (ports : list Z) :
  (forall j, stop j = false) ->
  forall i,
    let trace := tcp_loop tr stop ip timeout i ports in
    attempts trace = upto_first is_open ports /\
    pinged trace = negb (existsb is_open ports) /\
    appended trace =
      if existsb is_open ports || ping_replies tr timeout ip then found else [].
Proof.
  intros Hstop. induction ports as [|port rest IH]; intros i trace; subst trace.
  - cbn [tcp_loop]. rewrite icmp_fallback_attempts, icmp_fallback_pinged,
      icmp_fallback_appended. auto.
  - rewrite tcp_loop_cons, Hstop. simpl.
    destruct (is_open port) eqn:Eport; simpl.
    + auto.
    + destruct (IH (S i)) as [Ha [Hb Hc]]. rewrite Ha. auto.
Qed.

End PingHostFacts.

(** What a probe that never sees the stop flag appends: the host with its
    looked-up name if it is reachable, nothing otherwise. *)
Lemma ping_host_unstopped_appended tr ip timeout :
  NetworkDiscovery.appended
    (NetworkDiscovery._ping_host tr never ip timeout) =
    if NetworkDiscovery.reachable tr timeout ip
    then [(ip, NetworkDiscovery.lookup_hostname tr ip)] else [].
Proof.
  unfold NetworkDiscovery._ping_host, NetworkDiscovery.reachable.
  now destruct (tcp_loop_unstopped tr ip timeout never
                  NetworkDiscovery.probe_ports (fun _ => eq_refl) 0)
    as [_ [_ H]].
Qed.

Lemma ping_host_appends_once tr stop ip timeout :
  (List.length (NetworkDiscovery.appended
     (NetworkDiscovery._ping_host tr stop ip timeout)) <= 1)%nat.
Proof. apply tcp_loop_appends_once. Qed.

(** C5 (corrected).  [_ping_host] walks the list 80, 443, 22, 445 in this
    order, checking the stop flag before each attempt.  The attempted ports
    are an initial segment of the list; an attempt that succeeds is the last
    one, every port before it failed, and the host is then published without
    a ping.  As long as the stop flag is not seen set, the attempts run up
    to the first port that answers, and the ICMP check is reached exactly
    when all four ports failed. *)
Theorem C5_ping_host_port_order :
  forall (tr : transport) (stop : nat -> bool) (ip : host) (timeout : Q),
    let trace := NetworkDiscovery._ping_host tr stop ip timeout in
    let is_open := NetworkDiscovery.tcp_open tr timeout ip in
    NetworkDiscovery.probe_ports = [80; 443; 22; 445]%Z /\
    (exists rest,
        NetworkDiscovery.probe_ports = NetworkDiscovery.attempts trace ++ rest) /\
    (forall p,
        In p (NetworkDiscovery.attempts trace) -> is_open p = true ->
        exists before,
          NetworkDiscovery.attempts trace = before ++ [p] /\
          forallb (fun q => negb (is_open q)) before = true /\
          NetworkDiscovery.appended trace
            = [(ip, NetworkDiscovery.lookup_hostname tr ip)] /\
          NetworkDiscovery.pinged trace = false) /\
    ((forall i, stop i = false) ->
        NetworkDiscovery.attempts trace
          = NetworkDiscovery.upto_first is_open NetworkDiscovery.probe_ports /\
        NetworkDiscovery.pinged trace
          = negb (existsb is_open NetworkDiscovery.probe_ports)).
Proof.
  intros tr stop ip timeout trace is_open. subst trace is_open.
  unfold NetworkDiscovery._ping_host.
  split; [reflexivity|]. split; [apply tcp_loop_attempts_prefix|]. split.
  - intros p Hin Hp.
    destruct (tcp_loop_first_success tr ip timeout stop _ p 0 Hin Hp)
      as [before [Ha [Hb [Hc [_ He]]]]].
    exists before. auto.
  - intros Hstop.
    destruct (tcp_loop_unstopped tr ip timeout stop
                NetworkDiscovery.probe_ports Hstop 0) as [Ha [Hb _]].
    auto.
Qed.

Lemma C5_witness :
  NetworkDiscovery.attempts
    (NetworkDiscovery._ping_host Fixtures.https_only never
       "192.168.1.1" 1%Q) = [80; 443]%Z /\
  NetworkDiscovery.pinged
    (NetworkDiscovery._ping_host Fixtures.https_only never
       "192.168.1.1" 1%Q) = false.
Proof.
  exact (proj2 (proj2 (proj2
    (C5_ping_host_port_order Fixtures.https_only never
       "192.168.1.1" 1%Q))) (fun _ => eq_refl)).
Defined.

(** Counterexample to C5 as stated: the stop flag is already set when the
    probe starts; no port is attempted at all, and the probe still goes on
    to the ICMP check. *)
Lemma C5_counterexample :
  NetworkDiscovery._ping_host Fixtures.accepting Fixtures.always
    "192.168.1.1" 1%Q = [NetworkDiscovery.EvPing] /\
  ~ (NetworkDiscovery.pinged
       (NetworkDiscovery._ping_host Fixtures.accepting Fixtures.always
          "192.168.1.1" 1%Q) = true ->
     NetworkDiscovery.attempts
       (NetworkDiscovery._ping_host Fixtures.accepting Fixtures.always
          "192.168.1.1" 1%Q) = NetworkDiscovery.probe_ports).
Proof.
  split; [reflexivity|].
  intros H. specialize (H eq_refl). discriminate H.
Qed.

(** C8 (confirmed).  When an attempt of [_ping_host] succeeds, the reverse
    lookup is made once and the host is appended whatever the lookup does:
    with the name when [gethostbyaddr] returns one, with [None] when it
    raises. *)
Theorem C8_reverse_lookup_best_effort :
  forall (tr : transport) (stop : nat -> bool) (ip : host) (timeout : Q) (p : Z),
    let trace := NetworkDiscovery._ping_host tr stop ip timeout in
    In p (NetworkDiscovery.attempts trace) ->
    NetworkDiscovery.tcp_open tr timeout ip p = true ->
    NetworkDiscovery.lookups trace = 1%nat /\
    NetworkDiscovery.appended trace =
      [(ip, match gethostbyaddr tr ip with
            | Returned name => Some name
            | Raised _ => None
            end)].
Proof.
  intros tr stop ip timeout p trace Hin Hp. subst trace.
  destruct (tcp_loop_first_success tr ip timeout stop _ p 0 Hin Hp)
    as [before [_ [_ [Hc [Hd _]]]]].
  split; [exact Hd | exact Hc].
Qed.

Lemma C8_witness :
  NetworkDiscovery.lookups
    (NetworkDiscovery._ping_host Fixtures.accepting never
       "192.168.1.7" 1%Q) = 1%nat /\
  NetworkDiscovery.appended
    (NetworkDiscovery._ping_host Fixtures.accepting never
       "192.168.1.7" 1%Q) = [("192.168.1.7", None)].
Proof.
  apply (C8_reverse_lookup_best_effort Fixtures.accepting
           never "192.168.1.7" 1%Q 80%Z).
  - left. reflexivity.
  - reflexivity.
Defined.

(** ** [_scan_network] *)

Section ListFacts.

Context {A : Type}.

Lemma find_filter_length (f : A -> bool) (l : list A) (y : A) :
  find f l = Some y ->
  (List.length (filter (fun x => negb (f x)) l) < List.length l)%nat.
Proof.
  induction l as [|x l IH]; simpl; [discriminate|].
  destruct (f x) eqn:E; simpl.
  - intros _. pose proof (filter_length_le (fun x => negb (f x)) l). lia.
  - intros H. specialize (IH H). lia.
Qed.

Lemma NoDup_map_filter {B : Type} (g : A -> B) (p : A -> bool) (l : list A) :
  NoDup (map g l) -> NoDup (map g (filter p l)).
Proof.
  induction l as [|x l IH]; simpl; [auto|].
  intros H. inversion H as [|? ? Hx Hl]; subst.
  destruct (p x); simpl; [|auto].
  constructor; [|auto].
  intros Hin. apply Hx. apply in_map_iff in Hin.
  destruct Hin as [z [Hz Hin]]. apply filter_In in Hin.
  apply in_map_iff. exists z. tauto.
Qed.

End ListFacts.

Lemma find_filter_perm {B : Type} (l : list (nat * B)) (t : nat) (y : nat * B) :
  NoDup (map fst l) ->
  find (fun x => fst x =? t)%nat l = Some y ->
  Permutation l (y :: filter (fun x => negb (fst x =? t)%nat) l).
Proof.
  induction l as [|x l IH]; simpl; [discriminate|].
  intros Hnd. inversion Hnd as [|? ? Hx Hl]; subst.
  destruct (fst x =? t)%nat eqn:E; simpl.
  - intros H. inversion H; subst y. apply perm_skip.
    apply Nat.eqb_eq in E.
    assert (Hid : forall l' : list (nat * B), (forall z, In z l' -> fst z <> t) ->
              filter (fun x => negb (fst x =? t)%nat) l' = l').
    { induction l' as [|z l' IH']; simpl; [reflexivity|].
      intros Hall. destruct (fst z =? t)%nat eqn:Ez; simpl.
      - apply Nat.eqb_eq in Ez. exfalso. apply (Hall z); auto.
      - f_equal. apply IH'. intros; apply Hall; auto. }
    rewrite Hid; [reflexivity|].
    intros z Hz Heq. apply Hx. apply in_map_iff. exists z. split; [congruence|auto].
  - intros H. specialize (IH Hl H).
    eapply perm_trans; [apply perm_skip; exact IH | apply perm_swap].
Qed.

(** Closes the side goals of an invariant that a step leaves untouched. *)
Ltac trivial_inv :=
  try (intros; discriminate); try (simpl in *; lia).

Section ScanNetworkFacts.

Import NetworkDiscovery.

Variable k : nat.
Variable tr : transport.
Variable timeout : Q.

Lemma is_alive_listed (s : state) (x : nat * host) :
  In x (st_alive s) -> is_alive s (fst x) = true.
Proof.
  intros H. unfold is_alive. apply existsb_exists.
  exists x. split; [assumption | apply Nat.eqb_refl].
Qed.

Lemma init_consistent (hosts : list host) :
  consistent k (List.length hosts) (init hosts).
Proof.
  constructor; simpl; try contradiction; try lia; auto.
  constructor.
Qed.

Lemma main_step_consistent (n : nat) (s s' : state) :
  consistent k n s -> main_step k s = Some s' -> consistent k n s'.
Proof.
  intros [Hl Hb Hn Hf Hj Hc Hr] H.
  unfold main_step in H. unfold pending in Hc.
  destruct (st_pc s) eqn:Epc.
  - destruct (st_hosts s) as [|ip rest] eqn:Eh.
    + inversion H; subst s'; clear H.
      constructor; simpl; auto; trivial_inv.
    + destruct (st_stop s); inversion H; subst s'; clear H;
        constructor; simpl; auto; trivial_inv.
  - destruct (k <=? List.length (st_threads s))%nat eqn:Ek;
      inversion H; subst s'; clear H.
    + constructor; simpl; auto; trivial_inv.
      * intros x Hx. apply filter_In. split; [auto | now apply is_alive_listed].
      * pose proof (filter_length_le (is_alive s) (st_threads s)). lia.
    + apply Nat.leb_gt in Ek.
      constructor; simpl; trivial_inv.
      * intros x Hx. apply in_app_or in Hx. apply in_or_app.
        destruct Hx as [Hx|[<-|[]]]; [left; auto | right; now left].
      * rewrite length_app. simpl. lia.
      * rewrite map_app. simpl.
        apply NoDup_app; [assumption | repeat constructor; auto |].
        intros a Ha [<-|[]]. apply in_map_iff in Ha.
        destruct Ha as [x [Hx Hin]]. apply Hf in Hin. lia.
      * intros x Hx. apply in_app_or in Hx.
        destruct Hx as [Hx|[<-|[]]]; [apply Hf in Hx; lia | simpl; lia].
      * rewrite length_app. simpl. lia.
  - destruct (existsb (is_alive s) (st_threads s)) eqn:Ex; [discriminate|].
    inversion H; subst s'; clear H.
    constructor; simpl; auto.
    intros _. destruct (st_alive s) as [|x rest] eqn:Ea; [reflexivity|].
    exfalso.
    assert (Hx : In x (st_alive s)) by (rewrite Ea; now left).
    assert (existsb (is_alive s) (st_threads s) = true).
    { apply existsb_exists. exists (fst x). split.
      - apply Hl. now rewrite <- Ea.
      - now apply is_alive_listed. }
    congruence.
  - discriminate.
Qed.

Lemma exit_step_consistent (n t : nat) (obs : nat -> bool) (s s' : state) :
  consistent k n s -> exit_step tr timeout t obs s = Some s' -> consistent k n s'.
Proof.
  intros [Hl Hb Hn Hf Hj Hc Hr] H. unfold exit_step in H.
  destruct (find (fun x => fst x =? t)%nat (st_alive s)) as [[t' ip]|] eqn:Efind;
    [|discriminate].
  inversion H; subst s'; clear H.
  constructor; simpl; auto.
  - intros x Hx. apply filter_In in Hx. apply Hl, Hx.
  - now apply NoDup_map_filter.
  - intros x Hx. apply filter_In in Hx. apply Hf, Hx.
  - intros Hfin. rewrite (Hj Hfin). reflexivity.
  - rewrite length_app.
    pose proof (ping_host_appends_once tr (fun i => st_stop s && obs i) ip timeout).
    pose proof (find_filter_length _ _ _ Efind). lia.
Qed.

Lemma step_consistent (n : nat) (a : action) (s s' : state) :
  consistent k n s -> step k tr timeout a s = Some s' -> consistent k n s'.
Proof.
  destruct a as [|t obs|]; simpl.
  - apply main_step_consistent.
  - apply exit_step_consistent.
  - intros [Hl Hb Hn Hf Hj Hc Hr] H. inversion H; subst s'.
    constructor; simpl; auto.
Qed.

Lemma exec_consistent (n : nat) (sched : list action) :
  forall s s', consistent k n s -> exec k tr timeout sched s = Some s' ->
               consistent k n s'.
Proof.
  induction sched as [|a sched IH]; simpl; intros s s' Hs H.
  - inversion H; now subst.
  - destruct (step k tr timeout a s) as [s1|] eqn:E; [|discriminate].
    eapply IH; [|exact H]. eapply step_consistent; eassumption.
Qed.

(** Running probe threads are all in the list [threads], which never holds
    more than [k] entries. *)
Lemma consistent_in_flight (n : nat) (s : state) :
  consistent k n s -> (List.length (st_alive s) <= k)%nat.
Proof.
  intros [Hl Hb Hn Hf Hj Hc Hr].
  rewrite <- (length_map fst (st_alive s)).
  etransitivity; [|exact Hb].
  apply NoDup_incl_length; [assumption|].
  intros a Ha. apply in_map_iff in Ha. destruct Ha as [x [<- Hx]]. now apply Hl.
Qed.

(** The stop flag is never cleared by a step of the scan. *)
Lemma step_keeps_unset (a : action) (s s' : state) :
  step k tr timeout a s = Some s' -> st_stop s' = false -> st_stop s = false.
Proof.
  destruct a as [|t obs|]; simpl.
  - unfold main_step.
    destruct (st_pc s); [destruct (st_hosts s); [|destruct (st_stop s)]
                        | destruct (k <=? List.length (st_threads s))%nat
                        | destruct (existsb (is_alive s) (st_threads s))
                        | ];
      intros H; inversion H; subst s'; simpl; auto.
  - unfold exit_step.
    destruct (find (fun x => fst x =? t)%nat (st_alive s)) as [[t' ip]|];
      intros H; inversion H; subst s'; simpl; auto.
  - intros H; inversion H; subst s'; simpl. discriminate.
Qed.

Lemma init_complete (hosts : list host) :
  complete tr timeout hosts (init hosts).
Proof.
  intros _. split.
  - reflexivity.
  - simpl. intros [H|H]; discriminate H.
Qed.

Lemma step_complete (hosts : list host) (n : nat) (a : action) (s s' : state) :
  consistent k n s -> complete tr timeout hosts s ->
  step k tr timeout a s = Some s' -> complete tr timeout hosts s'.
Proof.
  intros Hcons Hcomp Hstep Hstop'.
  pose proof (step_keeps_unset a s s' Hstep Hstop') as Hstop.
  destruct (Hcomp Hstop) as [Hperm Hdone]. clear Hcomp.
  unfold outstanding, pending in *.
  destruct a as [|t obs|]; simpl in Hstep.
  - unfold main_step in Hstep.
    destruct (st_pc s) eqn:Epc.
    + destruct (st_hosts s) as [|ip rest] eqn:Eh.
      * inversion Hstep; subst s'; simpl. split; auto.
      * rewrite Hstop in Hstep. inversion Hstep; subst s'; simpl.
        split; [exact Hperm | intros [H|H]; discriminate H].
    + destruct (k <=? List.length (st_threads s))%nat;
        inversion Hstep; subst s'; simpl.
      * split; [exact Hperm | intros [H|H]; discriminate H].
      * split; [|intros [H|H]; discriminate H].
        rewrite map_app. simpl. rewrite <- app_assoc. exact Hperm.
    + destruct (existsb (is_alive s) (st_threads s)); [discriminate|].
      inversion Hstep; subst s'; simpl. split; auto.
    + discriminate.
  - unfold exit_step in Hstep.
    destruct (find (fun x => fst x =? t)%nat (st_alive s)) as [[t' ip]|] eqn:Efind;
      [|discriminate].
    inversion Hstep; subst s'; simpl. split; [|exact Hdone].
    rewrite Hstop.
    change (appended (_ping_host tr (fun i => false && obs i) ip timeout))
      with (probe tr timeout ip).
    eapply perm_trans; [|exact Hperm].
    rewrite <- app_assoc. apply Permutation_app_head.
    pose proof (find_filter_perm _ _ _ (inv_nodup _ _ _ Hcons) Efind) as Halive.
    match goal with
    | |- Permutation (probe tr timeout ip ++ flat_map _ (?l ++ ?rest)) _ =>
        change (Permutation (flat_map (probe tr timeout) ((ip :: l) ++ rest))
                  (flat_map (probe tr timeout) (map snd (st_alive s) ++ rest)))
    end.
    apply Permutation_flat_map, Permutation_app_tail.
    apply Permutation_sym.
    exact (Permutation_map snd Halive).
  - inversion Hstep; subst s'. simpl in Hstop'. discriminate.
Qed.

Lemma exec_complete (hosts : list host) (n : nat) (sched : list action) :
  forall s s',
    consistent k n s -> complete tr timeout hosts s ->
    exec k tr timeout sched s = Some s' -> complete tr timeout hosts s'.
Proof.
  induction sched as [|a sched IH]; simpl; intros s s' Hcons Hcomp H.
  - inversion H; now subst.
  - destruct (step k tr timeout a s) as [s1|] eqn:E; [|discriminate].
    eapply IH; [| |exact H].
    + eapply step_consistent; eassumption.
    + eapply step_complete; eassumption.
Qed.

(** A scan that reached its end with the stop flag unset has collected what
    the probes of all hosts append, in some order. *)
Lemma finished_results (hosts : list host) (sched : list action) (s : state) :
  exec k tr timeout sched (init hosts) = Some s ->
  st_pc s = Finished -> st_stop s = false ->
  Permutation (st_results s) (flat_map (probe tr timeout) hosts).
Proof.
  intros Hexec Hpc Hstop.
  pose proof (exec_consistent _ sched _ _
                (init_consistent hosts) Hexec) as Hcons.
  pose proof (exec_complete hosts _ sched _ _
                (init_consistent hosts) (init_complete hosts) Hexec) as Hcomp.
  destruct (Hcomp Hstop) as [Hperm Hdone].
  unfold outstanding, pending in Hperm.
  rewrite (inv_joined _ _ _ Hcons Hpc), Hpc, (Hdone (or_intror Hpc)) in Hperm.
  simpl in Hperm. now rewrite app_nil_r in Hperm.
Qed.

(** What the probes of all hosts append: the reachable hosts, once each. *)
Lemma probes_of_reachable (hosts : list host) :
  flat_map (probe tr timeout) hosts =
    map (fun ip => (ip, lookup_hostname tr ip)) (filter (reachable tr timeout) hosts).
Proof.
  induction hosts as [|ip hosts IH]; simpl; [reflexivity|].
  unfold probe at 1. rewrite ping_host_unstopped_appended.
  destruct (reachable tr timeout ip); simpl; now rewrite IH.
Qed.

End ScanNetworkFacts.

(** C3 (confirmed).  In every state a scan can reach, under any
    interleaving of the scanning thread, the probe threads and the stop
    button, the number of probe threads running is at most the bound of the
    throttling loop; [_scan_network] runs it with [max_threads = 50]. *)
Theorem C3_in_flight_bounded :
  forall (k : nat) (tr : transport) (timeout : Q) (hosts : list host)
         (sched : list NetworkDiscovery.action) (s : NetworkDiscovery.state),
    NetworkDiscovery.exec k tr timeout sched (NetworkDiscovery.init hosts) = Some s ->
    (List.length (NetworkDiscovery.st_alive s) <= k)%nat.
Proof.
  intros k tr timeout hosts sched s H.
  eapply consistent_in_flight.
  eapply exec_consistent; [apply init_consistent | exact H].
Qed.

(** The instance the code runs. *)
Corollary scan_network_in_flight_bounded tr timeout hosts sched s :
  NetworkDiscovery._scan_network tr timeout hosts sched = Some s ->
  (List.length (NetworkDiscovery.st_alive s) <= 50)%nat.
Proof.
  intros H.
  exact (consistent_in_flight 50 _ s
           (exec_consistent 50 tr timeout _ sched _ _
              (init_consistent 50 hosts) H)).
Qed.

Lemma C3_witness :
  exists s,
    NetworkDiscovery.exec 2 Fixtures.refusing 1%Q
      [NetworkDiscovery.Main; NetworkDiscovery.Main;
       NetworkDiscovery.Main; NetworkDiscovery.Main;
       NetworkDiscovery.Main; NetworkDiscovery.Main]
      (NetworkDiscovery.init ["10.0.0.1"; "10.0.0.2"; "10.0.0.3"]) = Some s /\
    List.length (NetworkDiscovery.st_alive s) = 2%nat /\
    (List.length (NetworkDiscovery.st_alive s) <= 2)%nat.
Proof.
  eexists. split; [vm_compute; reflexivity|]. split; [reflexivity|].
  apply (C3_in_flight_bounded 2 Fixtures.refusing 1%Q
           ["10.0.0.1"; "10.0.0.2"; "10.0.0.3"]
           [NetworkDiscovery.Main; NetworkDiscovery.Main;
            NetworkDiscovery.Main; NetworkDiscovery.Main;
            NetworkDiscovery.Main; NetworkDiscovery.Main]).
  vm_compute; reflexivity.
Defined.

(** ** The sequential port scan *)

Section ScanThreadFacts.

Import PortScanner.

Variable tr : transport.
Variable h : host.
Variable timeout : Q.

(** With the stop flag unset the loop probes the ports in order until one
    probe raises, and [open_ports] collects the probed ports found open. *)
Lemma scan_loop_unstopped (ports : list Z) :
  forall st st' e,
    scan_loop tr never h timeout ports st = (st', e) ->
    exists done,
      probed st' = probed st ++ done /\
      open_ports st' = open_ports st ++ filter (port_is_open tr h timeout) done /\
      match e with
      | None => done = ports
      | Some _ => exists rest, ports = done ++ rest
      end.
Proof.
  induction ports as [|port rest IH]; intros st st' e H.
  - inversion H; subst. exists []. now rewrite !app_nil_r.
  - cbn [scan_loop never] in H.
    destruct (_scan_port tr h port timeout) as [result|ex] eqn:Escan.
    + set (st3 := report_open tr h timeout port result _) in H.
      assert (Hp3 : probed st3 = probed st ++ [port]).
      { subst st3. unfold report_open.
        destruct (open result); destruct (mem port banner_ports);
          destruct (_grab_banner tr h port timeout); reflexivity. }
      assert (Ho3 : open_ports st3 =
                    open_ports st ++ (if open result then [port] else [])).
      { subst st3. unfold report_open.
        destruct (open result); destruct (mem port banner_ports);
          destruct (_grab_banner tr h port timeout);
          simpl; now rewrite ?app_nil_r. }
      clearbody st3.
      apply IH in H. destruct H as [done [Hp [Ho He]]].
      exists (port :: done).
      assert (Hopen : port_is_open tr h timeout port = open result)
        by (unfold port_is_open; now rewrite Escan).
      cbn [filter]. rewrite Hopen. repeat split.
      * rewrite Hp, Hp3, <- app_assoc. reflexivity.
      * rewrite Ho, Ho3, <- app_assoc. now destruct (open result).
      * destruct e; [|now subst].
        destruct He as [rest' ->]. now exists rest'.
    + inversion H; subst; clear H. exists [port]. simpl.
      unfold port_is_open. rewrite Escan. rewrite app_nil_r.
      repeat split. now exists rest.
Qed.

Lemma scan_thread_unstopped (ports : list Z) :
  let st := _scan_thread tr never h ports timeout in
  open_ports st = filter (port_is_open tr h timeout) (probed st) /\
  (probed st = ports \/ exists e, In (OutError e) (out st)) /\
  (List.length (open_ports st) <= List.length ports)%nat.
Proof.
  unfold _scan_thread.
  destruct (scan_loop tr never h timeout ports scan_init) as [st' e] eqn:E.
  apply scan_loop_unstopped in E. destruct E as [done [Hp [Ho He]]].
  simpl in Hp, Ho.
  destruct e as [ex|]; cbn [never]; simpl; rewrite Hp, Ho.
  - split; [reflexivity|]. split.
    + right. exists ex. apply in_or_app. right. now left.
    + destruct He as [rest ->]. rewrite length_app.
      pose proof (filter_length_le (port_is_open tr h timeout) done). lia.
  - rewrite He. split; [reflexivity|]. split; [now left|].
    apply filter_length_le.
Qed.

End ScanThreadFacts.

(** ** The scan comes to its end *)

Section ScanNetworkProgress.

Import NetworkDiscovery.

Variable k : nat.
Variable tr : transport.
Variable timeout : Q.
Hypothesis k_positive : (0 < k)%nat.

Lemma nobody_alive_exists (s : state) (threads : list nat) :
  st_alive s = [] -> existsb (is_alive s) threads = false.
Proof.
  intros H. induction threads as [|t threads IH]; simpl; [reflexivity|].
  rewrite IH. unfold is_alive. rewrite H. reflexivity.
Qed.

Lemma nobody_alive_filter (s : state) (threads : list nat) :
  st_alive s = [] -> filter (is_alive s) threads = [].
Proof.
  intros H. induction threads as [|t threads IH]; simpl; [reflexivity|].
  rewrite IH. unfold is_alive. rewrite H. reflexivity.
Qed.

Ltac run_step :=
  cbn [exec step main_step exit_step st_pc st_hosts st_threads st_alive
       st_started st_results st_stop st_out app find filter fst snd negb].

(** Under the schedule that lets every probe thread end before the next
    host is taken, and with nobody pressing Stop, the scan of any list of
    hosts reaches its end. *)
Lemma scan_can_finish (hosts : list host) :
  forall threads started results out,
  exists sched s',
    exec k tr timeout sched
      {| st_pc := AtFor; st_hosts := hosts; st_threads := threads;
         st_alive := []; st_started := started; st_results := results;
         st_stop := false; st_out := out |} = Some s' /\
    st_pc s' = Finished /\ st_stop s' = false.
Proof.
  induction hosts as [|ip rest IH]; intros threads started results out.
  - exists [Main; Main]. eexists. run_step.
    rewrite nobody_alive_exists by reflexivity.
    split; [reflexivity|]. split; reflexivity.
  - destruct (k <=? List.length threads)%nat eqn:Ek.
    + destruct (IH [started] (S started)
                  (results ++ appended (_ping_host tr never ip timeout)) out)
        as [sched [s' [Hexec Hfin]]].
      exists (Main :: Main :: Main :: Exit started never :: sched), s'.
      split; [|exact Hfin].
      run_step. rewrite Ek. run_step.
      rewrite nobody_alive_filter by reflexivity.
      destruct k as [|k']; [lia|].
      cbn [List.length Nat.leb]. run_step. unfold exit_step. run_step.
      rewrite Nat.eqb_refl. run_step. exact Hexec.
    + destruct (IH (threads ++ [started]) (S started)
                  (results ++ appended (_ping_host tr never ip timeout)) out)
        as [sched [s' [Hexec Hfin]]].
      exists (Main :: Main :: Exit started never :: sched), s'.
      split; [|exact Hfin].
      run_step. rewrite Ek. run_step. unfold exit_step. run_step.
      rewrite Nat.eqb_refl. run_step. exact Hexec.
Qed.

(** Once the [for] loop is left, by exhaustion or by the [break] on the stop
    flag, no thread is started any more: the hosts the loop did not reach
    are never probed. *)
Lemma after_loop_no_dispatch (sched : list action) :
  forall s s',
    st_pc s = AtJoin \/ st_pc s = Finished ->
    exec k tr timeout sched s = Some s' ->
    st_started s' = st_started s /\ st_hosts s' = st_hosts s.
Proof.
  induction sched as [|a sched IH]; simpl; intros s s' Hpc H.
  - inversion H; now subst.
  - destruct (step k tr timeout a s) as [s1|] eqn:E; [|discriminate].
    assert (Hs1 : (st_pc s1 = AtJoin \/ st_pc s1 = Finished) /\
                  st_started s1 = st_started s /\ st_hosts s1 = st_hosts s).
    { destruct a as [|t obs|]; simpl in E.
      - unfold main_step in E. destruct Hpc as [Hpc|Hpc]; rewrite Hpc in E.
        + destruct (existsb (is_alive s) (st_threads s)); [discriminate|].
          inversion E; subst s1; simpl. auto.
        + discriminate.
      - unfold exit_step in E.
        destruct (find (fun x => fst x =? t)%nat (st_alive s)) as [[t' ip]|];
          [|discriminate].
        inversion E; subst s1; simpl. auto.
      - inversion E; subst s1; simpl. auto. }
    destruct Hs1 as [Hpc1 [Hst Hh]].
    destruct (IH s1 s' Hpc1 H) as [H1 H2]. split; congruence.
Qed.

End ScanNetworkProgress.

(** ** Results of a run *)

(** C1 (corrected).  The collections the tools fill hold the targets found
    reachable, not one entry per target.  For the discovery scan: a run in
    which Stop is never pressed can always reach its end, and at its end
    [hosts_found] holds, in some order, exactly one entry for each reachable
    host and none for the others, so its length is the number of reachable
    hosts, at most the number of hosts.  For the port scan with the stop flag
    unset: [open_ports] holds the probed ports found open, and every port is
    probed unless a probe raised and ended the scan with an error line. *)
Theorem C1_results_hold_reachable_targets :
  forall (tr : transport) (timeout : Q) (hosts : list host),
    (exists sched s,
        NetworkDiscovery._scan_network tr timeout hosts sched = Some s /\
        NetworkDiscovery.st_pc s = NetworkDiscovery.Finished /\
        NetworkDiscovery.st_stop s = false) /\
    (forall sched s,
        NetworkDiscovery._scan_network tr timeout hosts sched = Some s ->
        NetworkDiscovery.st_pc s = NetworkDiscovery.Finished ->
        NetworkDiscovery.st_stop s = false ->
        Permutation (NetworkDiscovery.st_results s)
          (map (fun ip => (ip, NetworkDiscovery.lookup_hostname tr ip))
               (filter (NetworkDiscovery.reachable tr timeout) hosts)) /\
        List.length (NetworkDiscovery.st_results s)
          = List.length (filter (NetworkDiscovery.reachable tr timeout) hosts) /\
        (List.length (NetworkDiscovery.st_results s) <= List.length hosts)%nat) /\
    (forall h ports,
        let st := PortScanner._scan_thread tr never h ports timeout in
        PortScanner.open_ports st
          = filter (PortScanner.port_is_open tr h timeout) (PortScanner.probed st) /\
        (PortScanner.probed st = ports \/
         exists e, In (PortScanner.OutError e) (PortScanner.out st)) /\
        (List.length (PortScanner.open_ports st) <= List.length ports)%nat).
Proof.
  intros tr timeout hosts. split; [|split].
  - unfold NetworkDiscovery._scan_network, NetworkDiscovery.init.
    apply scan_can_finish. unfold NetworkDiscovery.max_threads. lia.
  - intros sched s Hrun Hpc Hstop.
    pose proof (finished_results _ tr timeout hosts sched s Hrun Hpc Hstop) as Hperm.
    rewrite probes_of_reachable in Hperm.
    assert (Hlen : List.length (NetworkDiscovery.st_results s)
                   = List.length (filter (NetworkDiscovery.reachable tr timeout) hosts)).
    { rewrite (Permutation_length Hperm). apply length_map. }
    split; [exact Hperm|]. split; [exact Hlen|].
    rewrite Hlen. apply filter_length_le.
  - intros h ports. apply scan_thread_unstopped.
Qed.

Lemma C1_witness :
  exists s,
    NetworkDiscovery._scan_network Fixtures.only_gateway 1%Q
      Fixtures.two_hosts Fixtures.second_ends_first = Some s /\
    NetworkDiscovery.st_results s = [("10.0.0.1", Some "gateway.lan")] /\
    List.length (NetworkDiscovery.st_results s)
      = List.length (filter (NetworkDiscovery.reachable Fixtures.only_gateway 1%Q)
                       Fixtures.two_hosts).
Proof.
  eexists. split; [vm_compute; reflexivity|]. split; [reflexivity|].
  apply (proj1 (proj2 (C1_results_hold_reachable_targets
                         Fixtures.only_gateway 1%Q Fixtures.two_hosts))
           Fixtures.second_ends_first);
    vm_compute; reflexivity.
Defined.

(** Counterexample to C1 as stated: one target, localhost:9999 where nothing
    listens, the stop flag never set.  The target is probed and the result
    collection stays empty: zero results for one target. *)
Lemma C1_counterexample :
  PortScanner.probed
    (PortScanner._scan_thread Fixtures.refusing never "localhost"
       [9999%Z] (1 # 2)%Q) = [9999%Z] /\
  PortScanner.open_ports
    (PortScanner._scan_thread Fixtures.refusing never "localhost"
       [9999%Z] (1 # 2)%Q) = [] /\
  List.length
    (PortScanner.open_ports
       (PortScanner._scan_thread Fixtures.refusing never "localhost"
          [9999%Z] (1 # 2)%Q)) <> List.length [9999%Z].
Proof.
  split; [reflexivity|]. split; [reflexivity|]. discriminate.
Qed.

(** C6 (corrected).  In every state of a discovery scan: a call of
    [_ping_host] appends at most one entry, whatever it sees of the stop
    flag, and exactly one when it runs unstopped on a reachable host, none
    on an unreachable one; every host taken from the iterator is given to
    one thread, so the entries appended never outnumber the threads that
    ended; and once the loop is left, also by the [break] on the stop flag,
    the hosts not yet taken are never given a thread. *)
Theorem C6_at_most_one_result_per_target :
  forall (tr : transport) (timeout : Q) (hosts : list host)
         (sched : list NetworkDiscovery.action) (s : NetworkDiscovery.state),
    NetworkDiscovery._scan_network tr timeout hosts sched = Some s ->
    (forall stop ip,
        (List.length (NetworkDiscovery.appended
           (NetworkDiscovery._ping_host tr stop ip timeout)) <= 1)%nat) /\
    (forall ip,
        NetworkDiscovery.appended (NetworkDiscovery._ping_host tr never ip timeout)
        = if NetworkDiscovery.reachable tr timeout ip
          then [(ip, NetworkDiscovery.lookup_hostname tr ip)] else []) /\
    (NetworkDiscovery.st_started s
       + List.length (NetworkDiscovery.pending s)
       + List.length (NetworkDiscovery.st_hosts s) = List.length hosts)%nat /\
    (List.length (NetworkDiscovery.st_results s)
       + List.length (NetworkDiscovery.st_alive s)
       <= NetworkDiscovery.st_started s)%nat /\
    (NetworkDiscovery.st_pc s = NetworkDiscovery.AtJoin \/
     NetworkDiscovery.st_pc s = NetworkDiscovery.Finished ->
     forall sched' s',
       NetworkDiscovery.exec NetworkDiscovery.max_threads tr timeout sched' s
         = Some s' ->
       NetworkDiscovery.st_started s' = NetworkDiscovery.st_started s /\
       NetworkDiscovery.st_hosts s' = NetworkDiscovery.st_hosts s).
Proof.
  intros tr timeout hosts sched s Hrun.
  pose proof (exec_consistent _ tr timeout _ sched _ _
                (init_consistent NetworkDiscovery.max_threads hosts) Hrun)
    as Hcons.
  split; [intros; apply ping_host_appends_once|].
  split; [intros; apply ping_host_unstopped_appended|].
  split; [apply (NetworkDiscovery.inv_count _ _ _ Hcons)|].
  split; [apply (NetworkDiscovery.inv_results _ _ _ Hcons)|].
  intros Hpc sched' s' Hexec.
  eapply after_loop_no_dispatch; eassumption.
Qed.

Lemma C6_witness :
  exists s,
    NetworkDiscovery._scan_network Fixtures.only_gateway 1%Q
      Fixtures.two_hosts Fixtures.stopped_early = Some s /\
    NetworkDiscovery.st_hosts s = ["10.0.0.2"] /\
    (List.length (NetworkDiscovery.st_results s)
       + List.length (NetworkDiscovery.st_alive s)
       <= NetworkDiscovery.st_started s)%nat.
Proof.
  eexists. split; [vm_compute; reflexivity|]. split; [reflexivity|].
  apply (C6_at_most_one_result_per_target Fixtures.only_gateway 1%Q
           Fixtures.two_hosts Fixtures.stopped_early).
  vm_compute; reflexivity.
Defined.

(** Counterexample to C6 as stated: the probe of a host that answers on no
    port and to no ping runs to its end, through all four attempts and the
    ping, and appends nothing. *)
Lemma C6_counterexample :
  NetworkDiscovery._ping_host Fixtures.refusing never "192.168.1.9" 1%Q
    = [NetworkDiscovery.EvAttempt 80; NetworkDiscovery.EvAttempt 443;
       NetworkDiscovery.EvAttempt 22; NetworkDiscovery.EvAttempt 445;
       NetworkDiscovery.EvPing] /\
  List.length
    (NetworkDiscovery.appended
       (NetworkDiscovery._ping_host Fixtures.refusing never "192.168.1.9" 1%Q))
    <> 1%nat.
Proof.
  split; [reflexivity | discriminate].
Qed.

(** ** Two runs of one batch *)

Lemma always_open (tr : transport) (timeout : Q) (ip : host) :
  (forall t h p, connect_ex tr t h p = Returned 0%Z) ->
  settimeout timeout = Returned tt ->
  NetworkDiscovery.reachable tr timeout ip = true.
Proof.
  intros Hall Ht. unfold NetworkDiscovery.reachable. simpl.
  unfold NetworkDiscovery.tcp_open at 1.
  now rewrite Ht, Hall.
Qed.

(** C9 (confirmed).  Against a transport on which every connect succeeds,
    two discovery scans of the same hosts that ran to their end without
    Stop being pressed, under any two interleavings, found the same hosts up
    to order, and when [settimeout] accepts the timeout they found every
    host.  [scan_port_multi] run on the same targets in two different
    orders, against two transports on which every connect succeeds, yields
    the same results up to order, and when [settimeout] accepts the timeout
    each result is flagged open. *)
Theorem C9_same_reachability_up_to_order :
  forall (tr : transport) (timeout : Q) (hosts : list host)
         (sched1 sched2 : list NetworkDiscovery.action)
         (s1 s2 : NetworkDiscovery.state),
    (forall t h p, connect_ex tr t h p = Returned 0%Z) ->
    NetworkDiscovery._scan_network tr timeout hosts sched1 = Some s1 ->
    NetworkDiscovery._scan_network tr timeout hosts sched2 = Some s2 ->
    NetworkDiscovery.st_pc s1 = NetworkDiscovery.Finished ->
    NetworkDiscovery.st_pc s2 = NetworkDiscovery.Finished ->
    NetworkDiscovery.st_stop s1 = false ->
    NetworkDiscovery.st_stop s2 = false ->
    Permutation (map fst (NetworkDiscovery.st_results s1))
                (map fst (NetworkDiscovery.st_results s2)) /\
    (settimeout timeout = Returned tt ->
     Permutation (map fst (NetworkDiscovery.st_results s1)) hosts) /\
    (forall (tr' : transport) h ports ports',
        (forall t h' p, connect_ex tr' t h' p = Returned 0%Z) ->
        Permutation ports ports' ->
        Permutation
          (map (fun p => PortScanner.scan_port_multi tr h p timeout) ports)
          (map (fun p => PortScanner.scan_port_multi tr' h p timeout) ports')) /\
    (settimeout timeout = Returned tt ->
     forall h p, PortScanner.scan_port_multi tr h p timeout = Returned (p, true)).
Proof.
  intros tr timeout hosts sched1 sched2 s1 s2 Hall H1 H2 Hp1 Hp2 Hs1 Hs2.
  pose proof (finished_results _ tr timeout hosts sched1 s1 H1 Hp1 Hs1) as R1.
  pose proof (finished_results _ tr timeout hosts sched2 s2 H2 Hp2 Hs2) as R2.
  split; [|split; [|split]].
  - apply Permutation_map.
    eapply perm_trans; [exact R1 | apply Permutation_sym; exact R2].
  - intros Ht. rewrite probes_of_reachable in R1.
    eapply perm_trans; [apply Permutation_map; exact R1|].
    rewrite map_map. simpl. rewrite map_id.
    assert (Hf : filter (NetworkDiscovery.reachable tr timeout) hosts = hosts).
    { clear - Hall Ht.
      induction hosts as [|ip l IH]; simpl; [reflexivity|].
      now rewrite (always_open tr timeout ip Hall Ht), IH. }
    now rewrite Hf.
  - intros tr' h ports ports' Hall' Hperm.
    rewrite (map_ext (fun p => PortScanner.scan_port_multi tr h p timeout)
                     (fun p => PortScanner.scan_port_multi tr' h p timeout)).
    + now apply Permutation_map.
    + intros p. unfold PortScanner.scan_port_multi.
      now rewrite Hall, Hall'.
  - intros Ht h p. unfold PortScanner.scan_port_multi.
    now rewrite Ht, Hall.
Qed.

Lemma C9_witness :
  exists s1 s2,
    NetworkDiscovery._scan_network Fixtures.accepting 1%Q
      Fixtures.two_hosts Fixtures.first_ends_first = Some s1 /\
    NetworkDiscovery._scan_network Fixtures.accepting 1%Q
      Fixtures.two_hosts Fixtures.second_ends_first = Some s2 /\
    map fst (NetworkDiscovery.st_results s1) = ["10.0.0.1"; "10.0.0.2"] /\
    map fst (NetworkDiscovery.st_results s2) = ["10.0.0.2"; "10.0.0.1"] /\
    Permutation (map fst (NetworkDiscovery.st_results s1))
                (map fst (NetworkDiscovery.st_results s2)).
Proof.
  do 2 eexists.
  split; [vm_compute; reflexivity|]. split; [vm_compute; reflexivity|].
  split; [reflexivity|]. split; [reflexivity|].
  apply (C9_same_reachability_up_to_order Fixtures.accepting 1%Q
           Fixtures.two_hosts Fixtures.first_ends_first
           Fixtures.second_ends_first);
    vm_compute; reflexivity.
Defined.

(** ** [BaseTool]: one worker at a time *)

Section BaseToolFacts.

Import BaseTool.

Lemma since_start_snoc (t : nat) (l : list event) (ev : event) :
  since_start t (l ++ [ev]) =
    match ev with
    | EvStart u =>
        if (u =? t)%nat then Some []
        else option_map (fun tail => tail ++ [ev]) (since_start t l)
    | _ => option_map (fun tail => tail ++ [ev]) (since_start t l)
    end.
Proof.
  induction l as [|x l IH].
  - simpl. destruct ev as [| |u]; try destruct (u =? t)%nat; reflexivity.
  - change ((x :: l) ++ [ev]) with (x :: (l ++ [ev])).
    cbn [since_start]. rewrite IH.
    destruct ev as [| |u]; try destruct (u =? t)%nat; try reflexivity;
      (destruct (since_start t l); simpl; [reflexivity|];
       destruct x as [| |v]; try reflexivity;
       destruct (v =? t)%nat; reflexivity).
Qed.

Lemma not_running_nobody_alive (s : tool) :
  sound s -> is_running s = false -> alive s = [].
Proof.
  intros [Ha _ _] Hrun.
  destruct (alive s) as [|t l] eqn:E; [reflexivity|]. exfalso.
  unfold is_running in Hrun. rewrite (Ha t (or_introl eq_refl)), E in Hrun.
  simpl in Hrun. now rewrite Nat.eqb_refl in Hrun.
Qed.

Lemma init_sound : sound init.
Proof.
  constructor; simpl; [contradiction | constructor | discriminate].
Qed.

Lemma run_in_thread_sound (s : tool) :
  sound s -> sound (snd (run_in_thread s)).
Proof.
  intros Hs. unfold run_in_thread.
  destruct (is_running s) eqn:Hrun; [exact Hs|].
  pose proof (not_running_nobody_alive s Hs Hrun) as Hnone.
  constructor; simpl.
  - rewrite Hnone. intros t [<-|[]]. reflexivity.
  - rewrite Hnone. repeat constructor. auto.
  - intros t Ht. inversion Ht; subst t. exists [].
    change (log s ++ [EvClear; EvStart (created s)])
      with (log s ++ [EvClear] ++ [EvStart (created s)]).
    rewrite app_assoc, since_start_snoc, Nat.eqb_refl.
    split; [reflexivity|]. split; [discriminate | contradiction].
Qed.

Lemma stop_sound (s : tool) : sound s -> sound (stop s).
Proof.
  intros [Ha Hn Hf]. constructor; simpl; auto.
  intros t Ht. destruct (Hf t Ht) as [tail [Htail _]].
  exists (tail ++ [EvSet]). rewrite since_start_snoc, Htail. simpl.
  split; [reflexivity|]. split; [|reflexivity].
  intros _. apply in_or_app. right. now left.
Qed.

Lemma step_sound (a : action) (s s' : tool) :
  sound s -> step a s = Some s' -> sound s'.
Proof.
  intros Hs. destruct a as [| |t]; simpl.
  - intros H; inversion H. now apply run_in_thread_sound.
  - intros H; inversion H. now apply stop_sound.
  - destruct (existsb (Nat.eqb t) (alive s)); [|discriminate].
    intros H; inversion H. destruct Hs as [Ha Hn Hf].
    constructor; simpl; auto.
    + intros u Hu. apply filter_In in Hu. apply Ha, Hu.
    + now apply NoDup_filter.
Qed.

Lemma exec_sound (sched : list action) :
  forall s s', sound s -> exec sched s = Some s' -> sound s'.
Proof.
  induction sched as [|a sched IH]; simpl; intros s s' Hs H.
  - inversion H; now subst.
  - destruct (step a s) as [s1|] eqn:E; [|discriminate].
    eapply IH; [|exact H]. eapply step_sound; eassumption.
Qed.

Lemma sound_one_alive (s : tool) :
  sound s -> (List.length (alive s) <= 1)%nat.
Proof.
  intros [Ha Hn _].
  destruct (alive s) as [|t [|u l]] eqn:E; simpl; try lia.
  exfalso.
  assert (Ht : worker_thread s = Some t) by (apply Ha; now left).
  assert (Hu : worker_thread s = Some u) by (apply Ha; right; now left).
  rewrite Ht in Hu. inversion Hu; subst u.
  inversion Hn as [|? ? Hnotin _]. apply Hnotin. now left.
Qed.

End BaseToolFacts.

(** C10 (confirmed).  In every state a tool reaches through calls of
    [run_in_thread] and [stop] and through its threads ending: at most one
    thread is alive; if the worker is alive, [run_in_thread] returns False
    and changes nothing, the stop flag included; otherwise it returns True
    after one [clear] followed by one [start], leaving the flag unset and the
    new thread the only one alive; and the flag a worker can see is set
    exactly when [set] was called after that worker was started. *)
Theorem C10_one_worker_at_a_time :
  forall (sched : list BaseTool.action) (s : BaseTool.tool),
    BaseTool.exec sched BaseTool.init = Some s ->
    (List.length (BaseTool.alive s) <= 1)%nat /\
    BaseTool.run_in_thread s =
      (if BaseTool.is_running s then (false, s)
       else (true,
             {| BaseTool.worker_thread := Some (BaseTool.created s);
                BaseTool.stop_event := false;
                BaseTool.alive := [BaseTool.created s];
                BaseTool.created := S (BaseTool.created s);
                BaseTool.log := BaseTool.log s ++
                  [BaseTool.EvClear; BaseTool.EvStart (BaseTool.created s)] |})) /\
    (forall t,
        BaseTool.worker_thread s = Some t ->
        exists tail,
          BaseTool.since_start t (BaseTool.log s) = Some tail /\
          (BaseTool.stop_event s = true <-> In BaseTool.EvSet tail)).
Proof.
  intros sched s H.
  pose proof (exec_sound sched _ _ init_sound H) as Hs.
  split; [now apply sound_one_alive|]. split.
  - unfold BaseTool.run_in_thread.
    destruct (BaseTool.is_running s) eqn:Hrun; [reflexivity|].
    now rewrite (not_running_nobody_alive s Hs Hrun).
  - apply (BaseTool.snd_flag s Hs).
Qed.

Lemma C10_witness :
  exists s,
    BaseTool.exec
      [BaseTool.CallRun; BaseTool.CallStop; BaseTool.CallRun;
       BaseTool.ThreadEnds 0; BaseTool.CallRun] BaseTool.init = Some s /\
    BaseTool.worker_thread s = Some 1%nat /\
    BaseTool.stop_event s = false /\
    (List.length (BaseTool.alive s) <= 1)%nat.
Proof.
  eexists. split; [vm_compute; reflexivity|].
  split; [reflexivity|]. split; [reflexivity|].
  apply (C10_one_worker_at_a_time
           [BaseTool.CallRun; BaseTool.CallStop; BaseTool.CallRun;
            BaseTool.ThreadEnds 0; BaseTool.CallRun]).
  vm_compute; reflexivity.
Defined.

(** * Further properties of the embedded code *)

(** ** Port scanner: the ports [run_tool] settles on *)

Section RunToolFacts.

Import PortScanner.

Lemma py_range_In (a b x : Z) :
  In x (py_range a b) <-> (a <= x < b)%Z.
Proof.
  split; [apply py_range_bounds|].
  intros H. unfold py_range. apply in_map_iff.
  exists (Z.to_nat (x - a)). split; [lia|]. apply in_seq. lia.
Qed.

Lemma py_range_length (a b : Z) :
  List.length (py_range a b) = Z.to_nat (b - a).
Proof. unfold py_range. now rewrite length_map, length_seq. Qed.

Lemma py_range_NoDup (a b : Z) : NoDup (py_range a b).
Proof.
  unfold py_range.
  generalize (seq_NoDup (Z.to_nat (b - a)) 0).
  generalize (seq 0 (Z.to_nat (b - a))) as l.
  induction l as [|i l IH]; simpl; intros Hnd; [constructor|].
  inversion Hnd as [|? ? Hi Hl]; subst. constructor; [|auto].
  intros Hin. apply in_map_iff in Hin. destruct Hin as [j [Hj Hin]].
  assert (j = i) by lia. subst j. contradiction.
Qed.

Lemma select_ports_nonempty (f : form) (ports : list Z) :
  select_ports f = inr ports -> ports <> [].
Proof.
  unfold select_ports.
  destruct (scan_type_var f =? "common").
  - intros H. inversion H. discriminate.
  - destruct (scan_type_var f =? "range").
    + destruct (port_from_var f) as [a|]; [|discriminate].
      destruct (port_to_var f) as [b|]; [|discriminate].
      destruct ((a <? 1) || (65535 <? b) || (b <? a))%Z eqn:E; [discriminate|].
      intros H. inversion H. subst ports. clear H.
      apply orb_false_elim in E. destruct E as [_ E3]. apply Z.ltb_ge in E3.
      intros Hnil. apply (f_equal (@List.length Z)) in Hnil.
      rewrite py_range_length in Hnil. simpl in Hnil. lia.
    + destruct (port_from_var f) as [p|]; [|discriminate].
      destruct ((p <? 1) || (65535 <? p))%Z; [discriminate|].
      intros H. inversion H. discriminate.
Qed.

(** [run_tool] of the port scanner starts no scan: a form it does not
    reject takes it to line 124, where [NameError] leaves it. *)
Lemma run_tool_starts_no_scan (f : form) :
  (forall h ports timeout, run_tool f <> Dispatched h ports timeout) /\
  (strip (host_var f) <> "" ->
   forall ports, select_ports f = inr ports -> run_tool f = Crashed NameError).
Proof.
  unfold run_tool. split.
  - intros h ports timeout.
    destruct (strip (host_var f) =? ""); [discriminate|].
    destruct (select_ports f); discriminate.
  - intros Hne ports Hsel. apply String.eqb_neq in Hne.
    now rewrite Hne, Hsel.
Qed.

Lemma COMMON_PORTS_NoDup : NoDup COMMON_PORTS.
Proof.
  unfold COMMON_PORTS.
  repeat (constructor; [simpl; intuition discriminate|]). constructor.
Qed.

(** X1.  Whatever list of ports [run_tool] of the port scanner settles on,
    in any of its three modes, is non-empty, holds only ports within
    1..65535 and holds no port twice. *)
Theorem X1_selected_ports_are_well_formed :
  forall (f : form) (ports : list Z),
    select_ports f = inr ports ->
    ports <> [] /\
    Forall (fun p => (1 <= p <= 65535)%Z) ports /\
    NoDup ports.
Proof.
  intros f ports H.
  split; [now apply select_ports_nonempty with f|].
  split; [now apply select_ports_valid with f|].
  unfold select_ports in H.
  destruct (scan_type_var f =? "common").
  - inversion H. apply COMMON_PORTS_NoDup.
  - destruct (scan_type_var f =? "range").
    + destruct (port_from_var f) as [a|]; [|discriminate].
      destruct (port_to_var f) as [b|]; [|discriminate].
      destruct ((a <? 1) || (65535 <? b) || (b <? a))%Z; [discriminate|].
      inversion H. apply py_range_NoDup.
    + destruct (port_from_var f) as [p|]; [|discriminate].
      destruct ((p <? 1) || (65535 <? p))%Z; [discriminate|].
      inversion H. repeat constructor. auto.
Qed.

Lemma X1_witness :
  select_ports Fixtures.form_single = inr [80%Z] /\
  [80%Z] <> [] /\ Forall (fun p => (1 <= p <= 65535)%Z) [80%Z] /\
  NoDup [80%Z].
Proof.
  split; [reflexivity|].
  apply (X1_selected_ports_are_well_formed Fixtures.form_single [80%Z] eq_refl).
Defined.

(** X2.  In range mode the list [run_tool] settles on holds exactly the
    ports from..to, both bounds included, each once: to - from + 1 ports. *)
Theorem X2_range_mode_enumerates_bounds_inclusive :
  forall (f : form) (ports : list Z) (a b : Z),
    scan_type_var f = "range" ->
    port_from_var f = Some a -> port_to_var f = Some b ->
    select_ports f = inr ports ->
    (forall p, In p ports <-> (a <= p <= b)%Z) /\
    List.length ports = Z.to_nat (b - a + 1) /\
    NoDup ports /\
    (1 <= a <= b)%Z /\ (b <= 65535)%Z.
Proof.
  intros f ports a b Hty Ha Hb Hsel.
  unfold select_ports in Hsel. rewrite Hty, Ha, Hb in Hsel. simpl in Hsel.
  destruct ((a <? 1) || (65535 <? b) || (b <? a))%Z eqn:E; [discriminate|].
  inversion Hsel. subst ports. clear Hsel.
  apply orb_false_elim in E. destruct E as [E E3].
  apply orb_false_elim in E. destruct E as [E1 E2].
  apply Z.ltb_ge in E1, E2, E3.
  split; [|split; [|split; [|split]]].
  - intros p. rewrite py_range_In. lia.
  - rewrite py_range_length. f_equal. lia.
  - apply py_range_NoDup.
  - lia.
  - lia.
Qed.

Lemma X2_witness :
  select_ports Fixtures.form_range = inr [20; 21; 22; 23; 24; 25]%Z /\
  List.length [20; 21; 22; 23; 24; 25]%Z = Z.to_nat (25 - 20 + 1).
Proof.
  split; [reflexivity|].
  apply (X2_range_mode_enumerates_bounds_inclusive Fixtures.form_range
           [20; 21; 22; 23; 24; 25]%Z 20%Z 25%Z);
    reflexivity.
Defined.

Lemma lstrip_all_space (s : string) : all_space s = true -> lstrip s = "".
Proof.
  induction s as [|c s IH]; simpl; [reflexivity|].
  intros H. apply andb_prop in H. destruct H as [Hc Hs].
  rewrite Hc. auto.
Qed.

(** X3.  A host field that is empty or holds only whitespace makes
    [run_tool] write the host error and start nothing, whatever the other
    fields hold. *)
Theorem X3_blank_host_rejected :
  forall f : form,
    all_space (host_var f) = true ->
    run_tool f = Rejected "Please enter a host or IP address.".
Proof.
  intros f H. unfold run_tool, strip.
  rewrite (lstrip_all_space _ H). reflexivity.
Qed.

Lemma X3_witness :
  run_tool Fixtures.form_blank_host
    = Rejected "Please enter a host or IP address.".
Proof.
  apply (X3_blank_host_rejected Fixtures.form_blank_host). reflexivity.
Defined.

End RunToolFacts.

(** ** Port scanner: one probe *)

(** X4.  [scan_port_multi] and [_scan_port] agree: whenever [_scan_port]
    returns a result, [scan_port_multi] returns the port with the same open
    flag; a result with an error message is never open; and a port is
    reported open only when [connect_ex] returned 0. *)
Theorem X4_probe_functions_agree :
  forall (tr : transport) (h : host) (port : Z) (timeout : Q)
         (r : PortScanner.port_result),
    PortScanner._scan_port tr h port timeout = Returned r ->
    PortScanner.scan_port_multi tr h port timeout
      = Returned (port, PortScanner.open r) /\
    (PortScanner.error r <> None -> PortScanner.open r = false) /\
    (PortScanner.open r = true -> connect_ex tr timeout h port = Returned 0%Z).
Proof.
  intros tr h port timeout r.
  unfold PortScanner._scan_port, PortScanner.scan_port_multi.
  destruct (settimeout timeout); [|discriminate].
  destruct (connect_ex tr timeout h port) as [code|[]];
    intros H; inversion H; subst r; simpl;
    repeat split; try reflexivity; try discriminate; try congruence.
  intros E. apply Z.eqb_eq in E. now subst.
Qed.

Lemma X4_witness :
  PortScanner.scan_port_multi Fixtures.https_only "localhost" 443%Z 1%Q
    = Returned (443%Z, true).
Proof.
  apply (X4_probe_functions_agree Fixtures.https_only "localhost" 443%Z 1%Q
           {| PortScanner.open := true; PortScanner.error := None |}).
  reflexivity.
Defined.

(** [scan_port_multi] raises exactly when [settimeout] does, and then with
    the same exception: a failing [connect_ex] never escapes it, while the
    same failure can escape [_scan_port]. *)
Lemma scan_port_multi_raises_only_with_settimeout :
  forall (tr : transport) (h : host) (port : Z) (timeout : Q) (e : exn),
    PortScanner.scan_port_multi tr h port timeout = Raised e <->
    settimeout timeout = Raised e.
Proof.
  intros tr h port timeout e. unfold PortScanner.scan_port_multi.
  destruct (settimeout timeout) as [u|e'].
  - destruct (connect_ex tr timeout h port); split; discriminate.
  - split; intros H; inversion H; reflexivity.
Qed.

(** ** Port scanner: the scan loop under any behaviour of the stop flag *)

Section ScanLoopFacts.

Import PortScanner.

Variable tr : transport.
Variable stop : nat -> bool.
Variable h : host.
Variable timeout : Q.

Local Abbreviation is_open := (port_is_open tr h timeout).
Local Abbreviation label := (fun p : Z => (p, service_name SERVICE_NAMES p)).

Lemma substring_length_le (m : nat) (s : string) :
  (String.length (substring 0 m s) <= m)%nat.
Proof.
  revert s. induction m as [|m IH]; intros [|c s]; simpl; try lia.
  specialize (IH s). lia.
Qed.

Lemma substring_chars (m : nat) (s : string) (c : ascii) :
  In c (list_ascii_of_string (substring 0 m s)) ->
  In c (list_ascii_of_string s).
Proof.
  revert s. induction m as [|m IH]; intros [|d s]; simpl; try tauto.
  intros [H|H]; [now left | right; now apply IH].
Qed.

Lemma first_line_single (s : string) :
  ~ In (ascii_of_nat 10) (list_ascii_of_string (first_line s)).
Proof.
  induction s as [|c s IH]; simpl; [tauto|].
  destruct (Ascii.eqb c (ascii_of_nat 10)) eqn:E; simpl; [tauto|].
  apply Ascii.eqb_neq in E. intros [H|H]; [congruence | contradiction].
Qed.

Lemma grab_banner_first_line (port : Z) (b : string) :
  _grab_banner tr h port timeout = Some b -> exists raw, b = first_line raw.
Proof.
  unfold _grab_banner. destruct (settimeout timeout); [|discriminate].
  destruct (recv_banner tr timeout h port) as [raw|]; [|discriminate].
  destruct (raw =? ""); [discriminate|].
  intros H. inversion H. now exists raw.
Qed.

(** What the two [if result['open']] statements do to the locals. *)
Lemma report_open_spec (port : Z) (result : port_result) (st1 : scan_state) :
  let st3 := report_open tr h timeout port result st1 in
  probed st3 = probed st1 /\
  checks st3 = checks st1 /\
  open_ports st3 = open_ports st1 ++ (if open result then [port] else []) /\
  exists lines,
    out st3 = out st1 ++ lines /\
    reported_open lines = (if open result then [label port] else []) /\
    closing lines = [] /\
    Forall banner_ok (banners lines) /\
    (List.length (banners lines) <= if open result then 1 else 0)%nat.
Proof.
  unfold report_open.
  destruct (open result); destruct (mem port banner_ports); cbn [andb];
    [destruct (_grab_banner tr h port timeout) as [b|] eqn:Eb | | |]; cbn.
  - repeat split; try reflexivity.
    exists [OutOpen port (service_name SERVICE_NAMES port);
            OutBanner (substring 0 100 b)].
    rewrite <- app_assoc. repeat split; simpl; auto.
    constructor; [|constructor].
    destruct (grab_banner_first_line port b Eb) as [raw ->]. split.
    + apply substring_length_le.
    + intros Hin. apply substring_chars in Hin.
      now apply first_line_single in Hin.
  - repeat split; try reflexivity.
    exists [OutOpen port (service_name SERVICE_NAMES port)].
    repeat split; simpl; auto.
  - repeat split; try reflexivity.
    exists [OutOpen port (service_name SERVICE_NAMES port)].
    repeat split; simpl; auto.
  - repeat split; try (now rewrite app_nil_r).
    exists []. rewrite app_nil_r. repeat split; simpl; auto.
  - repeat split; try (now rewrite app_nil_r).
    exists []. rewrite app_nil_r. repeat split; simpl; auto.
Qed.

(** The loop, whatever the stop flag does: it probes an initial segment of
    the ports, collects the open ones among them, and writes one OPEN line
    per open port; an exception that ends it is the one of the last probe. *)
Lemma scan_loop_spec (ports : list Z) :
  forall st st' e,
    scan_loop tr stop h timeout ports st = (st', e) ->
    exists done rest lines,
      ports = done ++ rest /\
      probed st' = probed st ++ done /\
      open_ports st' = open_ports st ++ filter is_open done /\
      out st' = out st ++ lines /\
      reported_open lines = map label (filter is_open done) /\
      closing lines = [] /\
      Forall banner_ok (banners lines) /\
      (List.length (banners lines) <= List.length (filter is_open done))%nat /\
      (forall ex, e = Some ex ->
         exists before p, done = before ++ [p] /\
                          _scan_port tr h p timeout = Raised ex).
Proof.
  induction ports as [|port rest IH]; intros st st' e H.
  - inversion H; subst. exists [], [], []. rewrite !app_nil_r.
    repeat split; auto. discriminate.
  - cbn [scan_loop] in H. destruct (stop (checks st)).
    + inversion H; subst; clear H. exists [], (port :: rest), [OutCancelled].
      cbn. rewrite !app_nil_r. repeat split; auto. discriminate.
    + destruct (_scan_port tr h port timeout) as [result|ex] eqn:Escan.
      * set (st1 := {| open_ports := open_ports st; out := out st;
                       probed := probed st ++ [port];
                       checks := S (checks st) |}) in H.
        destruct (report_open_spec port result st1)
          as [Hp3 [_ [Ho3 [lines3 [Hout3 [Hrep3 [Hcl3 [Hb3 Hn3]]]]]]]].
        apply IH in H.
        destruct H as [done [rest' [lines [Hsplit [Hp [Ho [Hout [Hrep
                        [Hcl [Hb [Hn Hex]]]]]]]]]]].
        assert (Hopen : is_open port = open result)
          by (unfold port_is_open; now rewrite Escan).
        exists (port :: done), rest', (lines3 ++ lines).
        cbn [filter]. rewrite Hopen.
        split; [now rewrite Hsplit|].
        split; [rewrite Hp, Hp3; subst st1; cbn; now rewrite <- app_assoc|].
        split; [rewrite Ho, Ho3; subst st1; cbn; rewrite <- app_assoc;
                now destruct (open result)|].
        split; [rewrite Hout, Hout3; subst st1; cbn; now rewrite <- app_assoc|].
        unfold reported_open, banners, closing in *.
        rewrite !flat_map_app, filter_app, Hrep3, Hrep, Hcl3, Hcl, length_app.
        split; [now destruct (open result)|].
        split; [reflexivity|].
        split; [now apply Forall_app|].
        split; [destruct (open result); simpl in *; lia|].
        intros ex Hex'. destruct (Hex ex Hex') as [before [p [-> Hraise]]].
        now exists (port :: before), p.
      * inversion H; subst; clear H. exists [port], rest, [].
        cbn. unfold port_is_open. rewrite Escan. rewrite !app_nil_r.
        repeat split; auto.
        intros ex' Hex. inversion Hex; subst ex'. now exists [], port.
Qed.

End ScanLoopFacts.

(** [_scan_thread] as a whole: the loop, then at most one closing line. *)
Lemma scan_thread_spec (tr : transport) (stop : nat -> bool) (h : host)
    (ports : list Z) (timeout : Q) :
  let st := PortScanner._scan_thread tr stop h ports timeout in
  exists rest lines final,
    ports = PortScanner.probed st ++ rest /\
    PortScanner.open_ports st
      = filter (PortScanner.port_is_open tr h timeout) (PortScanner.probed st) /\
    PortScanner.out st = lines ++ final /\
    PortScanner.reported_open lines
      = map (fun p => (p, PortScanner.service_name PortScanner.SERVICE_NAMES p))
            (PortScanner.open_ports st) /\
    PortScanner.closing lines = [] /\
    Forall PortScanner.banner_ok (PortScanner.banners lines) /\
    (List.length (PortScanner.banners lines)
       <= List.length (PortScanner.open_ports st))%nat /\
    (final = [] \/
     final = [PortScanner.OutSummary (List.length (PortScanner.open_ports st))] \/
     exists ex before p,
       final = [PortScanner.OutError ex] /\
       PortScanner.probed st = before ++ [p] /\
       PortScanner._scan_port tr h p timeout = Raised ex).
Proof.
  unfold PortScanner._scan_thread.
  destruct (PortScanner.scan_loop tr stop h timeout ports PortScanner.scan_init)
    as [st' e] eqn:E.
  apply scan_loop_spec in E.
  destruct E as [done [rest [lines [Hsplit [Hp [Ho [Hout [Hrep [Hcl [Hb [Hn Hex]]]]]]]]]]].
  simpl in Hp, Ho, Hout.
  exists rest, lines.
  destruct e as [ex|]; [|destruct (stop (PortScanner.checks st'))]; cbn;
    rewrite Hp, Ho, Hout.
  - exists [PortScanner.OutError ex]. repeat split; auto.
    right; right. destruct (Hex ex eq_refl) as [before [p [Hd Hr]]].
    now exists ex, before, p.
  - exists []. rewrite app_nil_r. repeat split; auto.
  - exists [PortScanner.OutSummary
              (List.length (filter (PortScanner.port_is_open tr h timeout) done))].
    repeat split; auto.
Qed.

(** X5.  Whatever the stop flag does, and whether or not a probe raises, the
    ports [_scan_thread] probes are an initial segment of the ports it was
    given, in their order, and [open_ports] holds exactly the probed ports
    whose probe returned open. *)
Theorem scan_probes_initial_segment :
  forall (tr : transport) (stop : nat -> bool) (h : host) (ports : list Z)
         (timeout : Q),
    let st := PortScanner._scan_thread tr stop h ports timeout in
    (exists rest, ports = PortScanner.probed st ++ rest) /\
    PortScanner.open_ports st
      = filter (PortScanner.port_is_open tr h timeout) (PortScanner.probed st).
Proof.
  intros tr stop h ports timeout st.
  destruct (scan_thread_spec tr stop h ports timeout)
    as [rest [lines [final [Hsplit [Ho _]]]]].
  split; [now exists rest | exact Ho].
Qed.

(** X6.  The OPEN lines [_scan_thread] writes are, in order, one line per
    port of [open_ports], each with the name [SERVICE_NAMES] gives the port
    or 'Unknown'. *)
Theorem open_lines_match_open_ports :
  forall (tr : transport) (stop : nat -> bool) (h : host) (ports : list Z)
         (timeout : Q),
    let st := PortScanner._scan_thread tr stop h ports timeout in
    PortScanner.reported_open (PortScanner.out st)
      = map (fun p => (p, PortScanner.service_name PortScanner.SERVICE_NAMES p))
            (PortScanner.open_ports st).
Proof.
  intros tr stop h ports timeout st.
  destruct (scan_thread_spec tr stop h ports timeout)
    as [rest [lines [final [_ [_ [Hout [Hrep [_ [_ [_ Hfinal]]]]]]]]]].
  fold st in Hout, Hrep, Hfinal. rewrite Hout.
  unfold PortScanner.reported_open in *. rewrite flat_map_app, Hrep.
  destruct Hfinal as [->|[->|[ex [before [p [-> _]]]]]];
    simpl; now rewrite app_nil_r.
Qed.

Lemma COMMON_PORTS_named :
  Forall (fun p => PortScanner.service_name PortScanner.SERVICE_NAMES p
                   <> "Unknown") PortScanner.COMMON_PORTS.
Proof.
  unfold PortScanner.COMMON_PORTS. repeat constructor; discriminate.
Qed.

(** X7.  In a scan of the common ports every OPEN line is for one of the
    common ports and carries that port's service name, never 'Unknown',
    whatever the transport answers and whenever the scan is stopped. *)
Theorem common_scan_names_every_open_port :
  forall (tr : transport) (stop : nat -> bool) (h : host) (timeout : Q)
         (p : Z) (name : string),
    In (p, name)
       (PortScanner.reported_open
          (PortScanner.out
             (PortScanner._scan_thread tr stop h PortScanner.COMMON_PORTS
                timeout))) ->
    In p PortScanner.COMMON_PORTS /\
    name = PortScanner.service_name PortScanner.SERVICE_NAMES p /\
    name <> "Unknown".
Proof.
  intros tr stop h timeout p name Hin.
  destruct (scan_thread_spec tr stop h PortScanner.COMMON_PORTS timeout)
    as [rest [lines [final [Hsplit [Ho [Hout [Hrep [_ [_ [_ Hfinal]]]]]]]]]].
  rewrite Hout in Hin. unfold PortScanner.reported_open in Hin, Hrep.
  rewrite flat_map_app, Hrep in Hin.
  assert (Hfin : flat_map
                   (fun x => match x with
                             | PortScanner.OutOpen q nm => [(q, nm)]
                             | _ => []
                             end) final = []).
  { destruct Hfinal as [->|[->|[ex [before [q [-> _]]]]]]; reflexivity. }
  rewrite Hfin, app_nil_r in Hin. apply in_map_iff in Hin.
  destruct Hin as [q [Heq Hq]]. inversion Heq. subst q name. clear Heq.
  rewrite Ho in Hq. apply filter_In in Hq. destruct Hq as [Hq _].
  assert (Hp : In p PortScanner.COMMON_PORTS).
  { rewrite Hsplit. apply in_or_app. now left. }
  split; [exact Hp|]. split; [reflexivity|].
  exact (proj1 (Forall_forall _ _) COMMON_PORTS_named p Hp).
Qed.

Lemma common_scan_names_every_open_port_witness :
  In (443%Z, "HTTPS")
     (PortScanner.reported_open
        (PortScanner.out
           (PortScanner._scan_thread Fixtures.https_only never "127.0.0.1"
              PortScanner.COMMON_PORTS 1%Q))) /\
  "HTTPS" <> "Unknown".
Proof.
  assert (Hin : In (443%Z, "HTTPS")
                  (PortScanner.reported_open
                     (PortScanner.out
                        (PortScanner._scan_thread Fixtures.https_only never
                           "127.0.0.1" PortScanner.COMMON_PORTS 1%Q))))
    by (vm_compute; auto).
  split; [exact Hin|].
  exact (proj2 (proj2 (common_scan_names_every_open_port Fixtures.https_only
                         never "127.0.0.1" 1%Q 443%Z "HTTPS" Hin))).
Defined.

(** X8.  Every banner line [_scan_thread] writes has at most 100 characters
    and no line feed, and there is at most one banner line per open port. *)
Theorem banner_lines_are_short_single_lines :
  forall (tr : transport) (stop : nat -> bool) (h : host) (ports : list Z)
         (timeout : Q),
    let st := PortScanner._scan_thread tr stop h ports timeout in
    Forall PortScanner.banner_ok (PortScanner.banners (PortScanner.out st)) /\
    (List.length (PortScanner.banners (PortScanner.out st))
       <= List.length (PortScanner.open_ports st))%nat.
Proof.
  intros tr stop h ports timeout st.
  destruct (scan_thread_spec tr stop h ports timeout)
    as [rest [lines [final [_ [_ [Hout [_ [_ [Hb [Hn Hfinal]]]]]]]]]].
  fold st in Hout, Hn, Hfinal. rewrite Hout.
  unfold PortScanner.banners in *. rewrite flat_map_app.
  destruct Hfinal as [->|[->|[ex [before [p [-> _]]]]]];
    simpl; rewrite app_nil_r; auto.
Qed.

(** X9.  [_scan_thread] writes at most one closing line.  A summary line
    carries the number of ports in [open_ports]; an error line carries the
    exception raised by the probe of the last port probed, and no port after
    that one was probed. *)
Theorem closing_line_of_a_scan :
  forall (tr : transport) (stop : nat -> bool) (h : host) (ports : list Z)
         (timeout : Q),
    let st := PortScanner._scan_thread tr stop h ports timeout in
    (List.length (PortScanner.closing (PortScanner.out st)) <= 1)%nat /\
    (forall n, In (PortScanner.OutSummary n) (PortScanner.out st) ->
       n = List.length (PortScanner.open_ports st) /\
       forall e, ~ In (PortScanner.OutError e) (PortScanner.out st)) /\
    (forall e, In (PortScanner.OutError e) (PortScanner.out st) ->
       exists before p,
         PortScanner.probed st = before ++ [p] /\
         PortScanner._scan_port tr h p timeout = Raised e).
Proof.
  intros tr stop h ports timeout st.
  destruct (scan_thread_spec tr stop h ports timeout)
    as [rest [lines [final [_ [_ [Hout [_ [Hcl [_ [_ Hfinal]]]]]]]]]].
  fold st in Hout, Hfinal. rewrite Hout.
  assert (Hnot : forall x, In x lines ->
            match x with
            | PortScanner.OutSummary _ | PortScanner.OutError _ => False
            | _ => True
            end).
  { intros x Hx. destruct x; auto;
      match type of Hx with
      | In ?y _ =>
          assert (Hin : In y (PortScanner.closing lines))
            by (apply filter_In; split; [exact Hx | reflexivity]);
          rewrite Hcl in Hin; contradiction
      end. }
  split; [|split].
  - unfold PortScanner.closing in *. rewrite filter_app, Hcl.
    destruct Hfinal as [->|[->|[ex [before [p [-> _]]]]]]; simpl; lia.
  - intros n Hin. apply in_app_or in Hin. destruct Hin as [Hin|Hin].
    + now apply Hnot in Hin.
    + destruct Hfinal as [->|[->|[ex [before [p [-> _]]]]]]; simpl in Hin;
        try tauto.
      * destruct Hin as [Hin|[]]. inversion Hin. split; [reflexivity|].
        intros e He. apply in_app_or in He. destruct He as [He|[He|[]]].
        -- now apply Hnot in He.
        -- discriminate.
      * destruct Hin as [Hin|[]]. discriminate.
  - intros e Hin. apply in_app_or in Hin. destruct Hin as [Hin|Hin].
    + now apply Hnot in Hin.
    + destruct Hfinal as [->|[->|[ex [before [p [-> [Hp Hr]]]]]]];
        simpl in Hin; try tauto.
      * destruct Hin as [Hin|[]]. discriminate.
      * destruct Hin as [Hin|[]]. inversion Hin; subst. now exists before, p.
Qed.

Lemma closing_line_of_a_scan_witness :
  In (PortScanner.OutSummary 1)
     (PortScanner.out
        (PortScanner._scan_thread Fixtures.https_only never "localhost"
           [80; 443; 8080]%Z 1%Q)) /\
  1%nat = List.length
            (PortScanner.open_ports
               (PortScanner._scan_thread Fixtures.https_only never "localhost"
                  [80; 443; 8080]%Z 1%Q)).
Proof.
  assert (Hin : In (PortScanner.OutSummary 1)
                  (PortScanner.out
                     (PortScanner._scan_thread Fixtures.https_only never
                        "localhost" [80; 443; 8080]%Z 1%Q)))
    by (vm_compute; auto).
  split; [exact Hin|].
  exact (proj1 (proj1 (proj2 (closing_line_of_a_scan Fixtures.https_only never
                                "localhost" [80; 443; 8080]%Z 1%Q)) 1%nat Hin)).
Defined.

Section ScanCancelFacts.

Import PortScanner.

Variable tr : transport.
Variable stop : nat -> bool.
Variable h : host.
Variable timeout : Q.

(** The loop up to the check at which the stop flag is first seen set. *)
Lemma scan_loop_cancelled (n : nat) :
  forall ports st,
    (forall i, (i < n)%nat -> stop (checks st + i) = false) ->
    stop (checks st + n) = true ->
    (n < List.length ports)%nat ->
    (forall p, In p (firstn n ports) ->
               exists r, _scan_port tr h p timeout = Returned r) ->
    exists st' lines,
      scan_loop tr stop h timeout ports st = (st', None) /\
      probed st' = probed st ++ firstn n ports /\
      checks st' = S (checks st + n) /\
      out st' = out st ++ lines ++ [OutCancelled] /\
      closing lines = [].
Proof.
  induction n as [|n IH]; intros [|port rest] st Hbefore Hat Hlen Hret;
    try (simpl in Hlen; lia).
  - cbn [scan_loop]. rewrite Nat.add_0_r in Hat. rewrite Hat.
    eexists. exists []. cbn. rewrite app_nil_r, Nat.add_0_r.
    repeat split; reflexivity.
  - cbn [scan_loop].
    assert (H0 : stop (checks st) = false)
      by (rewrite <- (Nat.add_0_r (checks st)); apply Hbefore; lia).
    rewrite H0.
    destruct (Hret port (or_introl eq_refl)) as [r Hr]. rewrite Hr.
    set (st1 := {| open_ports := open_ports st; out := out st;
                   probed := probed st ++ [port];
                   checks := S (checks st) |}).
    destruct (report_open_spec tr stop h timeout port r st1)
      as [Hp3 [Hc3 [_ [lines3 [Hout3 [_ [Hcl3 _]]]]]]].
    destruct (IH rest (report_open tr h timeout port r st1))
      as [st' [lines [Hrun [Hp [Hc [Hout Hcl]]]]]].
    + intros i Hi. rewrite Hc3. subst st1. cbn.
      rewrite <- Nat.add_succ_r. apply Hbefore. lia.
    + rewrite Hc3. subst st1. cbn.
      rewrite <- Nat.add_succ_r. exact Hat.
    + simpl in Hlen. lia.
    + intros p Hp. apply Hret. now right.
    + exists st', (lines3 ++ lines). split; [exact Hrun|].
      split; [rewrite Hp, Hp3; subst st1; cbn; now rewrite <- app_assoc|].
      split; [rewrite Hc, Hc3; subst st1; cbn; lia|].
      split; [rewrite Hout, Hout3; subst st1; cbn; now rewrite <- !app_assoc|].
      unfold closing in *. now rewrite filter_app, Hcl3, Hcl.
Qed.

End ScanCancelFacts.

(** X10.  If the stop flag is first seen set at the check before port number
    [n] (counting from 0) and no earlier probe raised, [_scan_thread] has
    probed exactly the first [n] ports, writes the cancel line, and, the
    flag still being set afterwards, writes neither summary nor error. *)
Theorem cancelled_scan_stops_at_the_flag :
  forall (tr : transport) (stop : nat -> bool) (h : host) (ports : list Z)
         (timeout : Q) (n : nat),
    (forall i, (i < n)%nat -> stop i = false) ->
    stop n = true -> stop (S n) = true ->
    (n < List.length ports)%nat ->
    (forall p, In p (firstn n ports) ->
               exists r, PortScanner._scan_port tr h p timeout = Returned r) ->
    let st := PortScanner._scan_thread tr stop h ports timeout in
    PortScanner.probed st = firstn n ports /\
    In PortScanner.OutCancelled (PortScanner.out st) /\
    PortScanner.closing (PortScanner.out st) = [].
Proof.
  intros tr stop h ports timeout n Hbefore Hat Hafter Hlen Hret st.
  destruct (scan_loop_cancelled tr stop h timeout n ports PortScanner.scan_init)
    as [st' [lines [Hrun [Hp [Hc [Hout Hcl]]]]]]; auto.
  subst st. unfold PortScanner._scan_thread. rewrite Hrun.
  simpl in Hc, Hp, Hout. rewrite Hc, Hafter. cbn. rewrite Hp, Hout.
  split; [reflexivity|]. split.
  - apply in_or_app. right. now left.
  - unfold PortScanner.closing in *. now rewrite filter_app, Hcl.
Qed.

Lemma cancelled_scan_stops_at_the_flag_witness :
  PortScanner.probed
    (PortScanner._scan_thread Fixtures.https_only Fixtures.stop_at_third
       "localhost" [80; 443; 8080; 8443]%Z 1%Q) = [80; 443]%Z.
Proof.
  apply (cancelled_scan_stops_at_the_flag Fixtures.https_only
           Fixtures.stop_at_third "localhost" [80; 443; 8080; 8443]%Z 1%Q 2).
  - intros i Hi. destruct i as [|[|i]]; [reflexivity | reflexivity | lia].
  - reflexivity.
  - reflexivity.
  - simpl. lia.
  - intros p [<-|[<-|[]]]; eexists; reflexivity.
Defined.

(** X11.  A timeout that [settimeout] refuses ends a port scan at its first
    port: the exception is raised outside the [try] of [_scan_port], before
    any connect, so nothing is found, no further port is probed, and the
    only line [_scan_thread] writes is the error with that exception.  For
    a negative timeout within the clock's range the exception is
    [ValueError]. *)
Theorem refused_timeout_aborts_the_scan :
  forall (tr : transport) (stop : nat -> bool) (h : host) (port : Z)
         (rest : list Z) (timeout : Q) (e : exn),
    settimeout timeout = Raised e ->
    stop 0%nat = false ->
    let st := PortScanner._scan_thread tr stop h (port :: rest) timeout in
    PortScanner.out st = [PortScanner.OutError e] /\
    PortScanner.open_ports st = [] /\
    PortScanner.probed st = [port] /\
    (Qle_bool 0%Q timeout = false ->
     Qle_bool (- timeout_limit)%Q timeout = true -> e = ValueError).
Proof.
  intros tr stop h port rest timeout e Ht Hstop st.
  subst st. unfold PortScanner._scan_thread. cbn [PortScanner.scan_loop].
  cbn [PortScanner.checks PortScanner.scan_init]. rewrite Hstop.
  unfold PortScanner._scan_port. rewrite Ht.
  repeat split.
  intros Hneg Hlow. unfold settimeout in Ht. rewrite Hneg, Hlow in Ht.
  destruct (Qle_bool timeout timeout_limit) eqn:Hup; simpl in Ht.
  - now inversion Ht.
  - exfalso. clear Ht. rename Hup into Eup.
    assert (Hle : (timeout <= timeout_limit)%Q).
    { apply Qlt_le_weak. apply Qlt_le_trans with 0%Q.
      - apply Qnot_le_lt. intros H0. apply Qle_bool_iff in H0.
        rewrite H0 in Hneg. discriminate Hneg.
      - discriminate. }
    apply Qle_bool_iff in Hle. rewrite Hle in Eup. discriminate Eup.
Qed.

Lemma refused_timeout_aborts_the_scan_witness :
  settimeout (-5 # 1)%Q = Raised ValueError /\
  PortScanner.out
    (PortScanner._scan_thread Fixtures.accepting never "127.0.0.1"
       [80; 443]%Z (-5 # 1)%Q) = [PortScanner.OutError ValueError] /\
  PortScanner.probed
    (PortScanner._scan_thread Fixtures.accepting never "127.0.0.1"
       [80; 443]%Z (-5 # 1)%Q) = [80%Z].
Proof.
  split; [reflexivity|].
  pose proof (refused_timeout_aborts_the_scan Fixtures.accepting never
                "127.0.0.1" 80%Z [443%Z] (-5 # 1)%Q ValueError
                eq_refl eq_refl) as [Hout [_ [Hp _]]].
  split; [exact Hout | exact Hp].
Defined.

(** ** Network discovery: one probe, any behaviour of the stop flag *)

Section PingHostBounds.

Import NetworkDiscovery.

Variable tr : transport.
Variable stop : nat -> bool.
Variable ip : host.
Variable timeout : Q.

Lemma host_is_up_shape :
  appended (host_is_up tr ip) = [(ip, lookup_hostname tr ip)] /\
  lookups (host_is_up tr ip) = 1%nat /\
  attempts (host_is_up tr ip) = [].
Proof. repeat split. Qed.

Lemma icmp_fallback_shape :
  let trace := icmp_fallback tr ip timeout in
  attempts trace = [] /\
  lookups trace = List.length (appended trace) /\
  (forall e, In e (appended trace) -> e = (ip, lookup_hostname tr ip)).
Proof.
  cbn zeta. rewrite icmp_fallback_eq.
  destruct (ping_replies tr timeout ip); cbn; repeat split;
    try (intros e [<-|[]]; reflexivity); try contradiction.
Qed.

Lemma tcp_loop_shape (ports : list Z) :
  forall i,
    let trace := tcp_loop tr stop ip timeout i ports in
    (List.length (attempts trace) <= List.length ports)%nat /\
    lookups trace = List.length (appended trace) /\
    (forall e, In e (appended trace) -> e = (ip, lookup_hostname tr ip)).
Proof.
  induction ports as [|port rest IH]; intros i; cbn zeta.
  - cbn [tcp_loop]. destruct icmp_fallback_shape as [Ha [Hl He]].
    rewrite Ha. repeat split; auto.
  - rewrite tcp_loop_cons. destruct (stop i).
    + destruct icmp_fallback_shape as [Ha [Hl He]].
      rewrite Ha. repeat split; auto. simpl. lia.
    + destruct (tcp_open tr timeout ip port).
      * cbn. repeat split; try lia. intros e [<-|[]]. reflexivity.
      * destruct (IH (S i)) as [Ha [Hl He]].
        unfold attempts, appended, lookups in *.
        cbn [flat_map filter app List.length].
        repeat split; auto. lia.
Qed.

End PingHostBounds.

(** X12.  Whatever the stop flag does, one call of [_ping_host] makes at most
    four connection attempts, makes a reverse lookup exactly when it appends
    an entry, and any entry it appends is for the host it was given, with
    the name the lookup gave. *)
Theorem ping_host_stays_on_its_host :
  forall (tr : transport) (stop : nat -> bool) (ip : host) (timeout : Q),
    let trace := NetworkDiscovery._ping_host tr stop ip timeout in
    (List.length (NetworkDiscovery.attempts trace) <= 4)%nat /\
    NetworkDiscovery.lookups trace
      = List.length (NetworkDiscovery.appended trace) /\
    (forall e, In e (NetworkDiscovery.appended trace) ->
               e = (ip, NetworkDiscovery.lookup_hostname tr ip)).
Proof.
  intros tr stop ip timeout.
  exact (tcp_loop_shape tr stop ip timeout NetworkDiscovery.probe_ports 0).
Qed.

Lemma ping_host_stays_on_its_host_witness :
  ("10.0.0.1", Some "gateway.lan") = ("10.0.0.1",
     NetworkDiscovery.lookup_hostname Fixtures.only_gateway "10.0.0.1").
Proof.
  apply (proj2 (proj2 (ping_host_stays_on_its_host Fixtures.only_gateway
                         never "10.0.0.1" 1%Q))).
  vm_compute. now left.
Defined.

(** ** Network discovery: which hosts are probed, and what is reported *)

Section ScanNetworkOrder.

Import NetworkDiscovery.

Variable k : nat.
Variable tr : transport.
Variable timeout : Q.
Variable hosts : list host.

Lemma init_in_order : in_order tr hosts (init hosts).
Proof.
  constructor; simpl; try contradiction.
  exists []. auto.
Qed.

Lemma main_step_in_order (s s' : state) :
  in_order tr hosts s -> main_step k s = Some s' -> in_order tr hosts s'.
Proof.
  intros [[done [Hsplit Hlen]] Ha Hr] H.
  unfold main_step in H. unfold pending in Hsplit.
  destruct (st_pc s) eqn:Epc.
  - destruct (st_hosts s) as [|ip rest] eqn:Eh.
    + inversion H; subst s'; clear H.
      constructor; simpl; auto. exists done. auto.
    + destruct (st_stop s); inversion H; subst s'; clear H;
        constructor; simpl; auto; exists done; auto.
  - destruct (k <=? List.length (st_threads s))%nat;
      inversion H; subst s'; clear H.
    + constructor; simpl; auto. exists done. auto.
    + constructor; simpl; auto.
      * exists (done ++ [ip]). rewrite length_app. simpl. split; [|lia].
        rewrite Hsplit. now rewrite <- app_assoc.
      * intros x Hx. apply in_app_or in Hx. destruct Hx as [Hx|[<-|[]]];
          [auto|]. simpl. rewrite Hsplit, <- Hlen.
        rewrite nth_error_app2 by lia. now rewrite Nat.sub_diag.
  - destruct (existsb (is_alive s) (st_threads s)); [discriminate|].
    inversion H; subst s'; clear H.
    constructor; simpl; auto. exists done. auto.
  - discriminate.
Qed.

Lemma exit_step_in_order (t : nat) (obs : nat -> bool) (s s' : state) :
  in_order tr hosts s -> exit_step tr timeout t obs s = Some s' ->
  in_order tr hosts s'.
Proof.
  intros [Hsplit Ha Hr] H. unfold exit_step in H.
  destruct (find (fun x => fst x =? t)%nat (st_alive s)) as [[t' ip]|] eqn:Efind;
    [|discriminate].
  inversion H; subst s'; clear H.
  apply find_some in Efind. destruct Efind as [Hin _].
  constructor; simpl; auto.
  - intros x Hx. apply filter_In in Hx. apply Ha, Hx.
  - intros e He. apply in_app_or in He. destruct He as [He|He]; [auto|].
    apply (tcp_loop_shape tr _ ip timeout probe_ports 0) in He. subst e.
    simpl. split; [|reflexivity].
    apply Ha in Hin. simpl in Hin. now apply nth_error_In in Hin.
Qed.

Lemma exec_in_order (sched : list action) :
  forall s s', in_order tr hosts s -> exec k tr timeout sched s = Some s' ->
               in_order tr hosts s'.
Proof.
  induction sched as [|a sched IH]; simpl; intros s s' Hs H.
  - inversion H; now subst.
  - destruct (step k tr timeout a s) as [s1|] eqn:E; [|discriminate].
    eapply IH; [|exact H]. destruct a as [|t obs|]; simpl in E.
    + eapply main_step_in_order; eassumption.
    + eapply exit_step_in_order; eassumption.
    + inversion E; subst s1. destruct Hs as [Hsplit Ha Hr].
      constructor; simpl; auto.
Qed.

Lemma init_reported : reported tr timeout hosts (init hosts).
Proof. reflexivity. Qed.

Lemma step_reported (n : nat) (a : action) (s s' : state) :
  consistent k n s -> complete tr timeout hosts s ->
  reported tr timeout hosts s ->
  step k tr timeout a s = Some s' -> reported tr timeout hosts s'.
Proof.
  intros Hcons Hcomp Hrep H. unfold reported in *.
  destruct a as [|t obs|]; simpl in H.
  - unfold main_step in H. destruct (st_pc s) eqn:Epc.
    + destruct (st_hosts s) as [|ip rest] eqn:Eh.
      * inversion H; subst s'; simpl. now left.
      * destruct (st_stop s) eqn:Es; inversion H; subst s'; simpl.
        -- right. rewrite Hrep. repeat split; auto. discriminate.
        -- exact Hrep.
    + destruct (k <=? List.length (st_threads s))%nat;
        inversion H; subst s'; simpl; exact Hrep.
    + destruct (existsb (is_alive s) (st_threads s)) eqn:Ex; [discriminate|].
      inversion H; subst s'; simpl.
      destruct Hrep as [Hout|[Hout [Hstop Hleft]]].
      * rewrite Hout. destruct (st_stop s) eqn:Es; [now left|].
        right; right. split; [reflexivity|].
        destruct (Hcomp Es) as [Hperm Hdone].
        unfold outstanding, pending in Hperm.
        assert (Halive : st_alive s = []).
        { destruct (st_alive s) as [|x l] eqn:Ea; [reflexivity|]. exfalso.
          assert (Hx : In x (st_alive s)) by (rewrite Ea; now left).
          assert (existsb (is_alive s) (st_threads s) = true).
          { apply existsb_exists. exists (fst x). split.
            - now apply (inv_listed _ _ _ Hcons).
            - now apply is_alive_listed. }
          congruence. }
        rewrite Halive, Epc, (Hdone (or_introl Epc)) in Hperm.
        simpl in Hperm. now rewrite app_nil_r in Hperm.
      * rewrite Hout, Hstop. right; left. now rewrite app_nil_r.
    + discriminate.
  - unfold exit_step in H.
    destruct (find (fun x => fst x =? t)%nat (st_alive s)) as [[t' ip]|] eqn:Efind;
      [|discriminate].
    inversion H; subst s'; simpl.
    destruct (st_pc s) eqn:Epc; auto.
    rewrite (inv_joined _ _ _ Hcons Epc) in Efind. discriminate.
  - inversion H; subst s'; simpl.
    destruct (st_pc s); auto.
    destruct Hrep as [Hout|[Hout [Hstop Hleft]]]; [now left | right; auto].
Qed.

Lemma exec_reported (n : nat) (sched : list action) :
  forall s s',
    consistent k n s -> complete tr timeout hosts s ->
    reported tr timeout hosts s ->
    exec k tr timeout sched s = Some s' -> reported tr timeout hosts s'.
Proof.
  induction sched as [|a sched IH]; simpl; intros s s' Hcons Hcomp Hrep H.
  - inversion H; now subst.
  - destruct (step k tr timeout a s) as [s1|] eqn:E; [|discriminate].
    eapply IH; [| | |exact H].
    + eapply step_consistent; eassumption.
    + eapply step_complete; eassumption.
    + eapply step_reported; eassumption.
Qed.

(** After Stop was pressed the scanning thread starts at most the one
    thread whose host it had already taken from the iterator. *)
Lemma step_after_stop (a : action) (s s' : state) :
  st_stop s = true -> step k tr timeout a s = Some s' ->
  st_stop s' = true /\
  (st_started s' + List.length (pending s')
     <= st_started s + List.length (pending s))%nat.
Proof.
  intros Hstop H. unfold pending. destruct a as [|t obs|]; simpl in H.
  - unfold main_step in H. rewrite Hstop in H.
    destruct (st_pc s);
      [destruct (st_hosts s)
      | destruct (k <=? List.length (st_threads s))%nat
      | destruct (existsb (is_alive s) (st_threads s)) | ];
      inversion H; subst s'; simpl; split; auto; lia.
  - unfold exit_step in H.
    destruct (find (fun x => fst x =? t)%nat (st_alive s)) as [[t' ip]|];
      inversion H; subst s'; simpl; split; auto.
  - inversion H; subst s'; simpl. split; auto.
Qed.

End ScanNetworkOrder.

Lemma scan_in_order tr timeout hosts sched s :
  NetworkDiscovery._scan_network tr timeout hosts sched = Some s ->
  NetworkDiscovery.in_order tr hosts s.
Proof.
  intros H.
  exact (exec_in_order _ tr timeout hosts sched _ _ (init_in_order tr hosts) H).
Qed.

Lemma scan_reported tr timeout hosts sched s :
  NetworkDiscovery._scan_network tr timeout hosts sched = Some s ->
  NetworkDiscovery.reported tr timeout hosts s.
Proof.
  intros H.
  exact (exec_reported _ tr timeout hosts _ sched _ _
           (init_consistent _ hosts) (init_complete tr timeout hosts)
           (init_reported tr timeout hosts) H).
Qed.

(** X13.  In every state of a discovery scan, under any interleaving and
    whether or not Stop was pressed, every entry of [hosts_found] is a host
    of the scanned range paired with the name the reverse lookup gives for
    that host. *)
Theorem results_are_hosts_of_the_range :
  forall (tr : transport) (timeout : Q) (hosts : list host)
         (sched : list NetworkDiscovery.action) (s : NetworkDiscovery.state),
    NetworkDiscovery._scan_network tr timeout hosts sched = Some s ->
    forall e, In e (NetworkDiscovery.st_results s) ->
              In (fst e) hosts /\
              snd e = NetworkDiscovery.lookup_hostname tr (fst e).
Proof.
  intros tr timeout hosts sched s H.
  exact (NetworkDiscovery.ord_results _ _ _ (scan_in_order _ _ _ _ _ H)).
Qed.

Lemma results_are_hosts_of_the_range_witness :
  In "10.0.0.1" Fixtures.two_hosts /\
  Some "gateway.lan"
    = NetworkDiscovery.lookup_hostname Fixtures.only_gateway "10.0.0.1".
Proof.
  apply (results_are_hosts_of_the_range Fixtures.only_gateway 1%Q
           Fixtures.two_hosts Fixtures.second_ends_first
           {| NetworkDiscovery.st_pc := NetworkDiscovery.Finished;
              NetworkDiscovery.st_hosts := [];
              NetworkDiscovery.st_threads := [0%nat; 1%nat];
              NetworkDiscovery.st_alive := [];
              NetworkDiscovery.st_started := 2;
              NetworkDiscovery.st_results := [("10.0.0.1", Some "gateway.lan")];
              NetworkDiscovery.st_stop := false;
              NetworkDiscovery.st_out := [NetworkDiscovery.OutComplete 1] |}
           ltac:(vm_compute; reflexivity)
           ("10.0.0.1", Some "gateway.lan")).
  now left.
Defined.

(** X14.  The scanning thread takes the hosts in the order of the range and
    gives each one taken to one new thread: the hosts taken so far are an
    initial segment of the range, as many as threads were started plus the
    one pending, and thread number [t] probes host number [t]. *)
Theorem hosts_are_dispatched_in_order :
  forall (tr : transport) (timeout : Q) (hosts : list host)
         (sched : list NetworkDiscovery.action) (s : NetworkDiscovery.state),
    NetworkDiscovery._scan_network tr timeout hosts sched = Some s ->
    (exists done,
        hosts = done ++ NetworkDiscovery.pending s ++ NetworkDiscovery.st_hosts s /\
        List.length done = NetworkDiscovery.st_started s) /\
    (forall t ip, In (t, ip) (NetworkDiscovery.st_alive s) ->
                  nth_error hosts t = Some ip) /\
    NoDup (map fst (NetworkDiscovery.st_alive s)).
Proof.
  intros tr timeout hosts sched s H.
  pose proof (scan_in_order _ _ _ _ _ H) as [Hsplit Ha _].
  pose proof (exec_consistent _ tr timeout _ sched _ _
                (init_consistent NetworkDiscovery.max_threads hosts) H) as Hc.
  split; [exact Hsplit|]. split.
  - intros t ip Hin. exact (Ha (t, ip) Hin).
  - exact (NetworkDiscovery.inv_nodup _ _ _ Hc).
Qed.

Lemma hosts_are_dispatched_in_order_witness :
  exists s,
    NetworkDiscovery._scan_network Fixtures.only_gateway 1%Q
      ["10.0.0.1"; "10.0.0.2"; "10.0.0.3"]
      [NetworkDiscovery.Main; NetworkDiscovery.Main;
       NetworkDiscovery.Main; NetworkDiscovery.Main;
       NetworkDiscovery.Exit 0 never] = Some s /\
    NetworkDiscovery.st_alive s = [(1%nat, "10.0.0.2")] /\
    nth_error ["10.0.0.1"; "10.0.0.2"; "10.0.0.3"] 1 = Some "10.0.0.2".
Proof.
  eexists. split; [vm_compute; reflexivity|]. split; [reflexivity|].
  apply (proj1 (proj2 (hosts_are_dispatched_in_order Fixtures.only_gateway 1%Q
                         ["10.0.0.1"; "10.0.0.2"; "10.0.0.3"]
                         [NetworkDiscovery.Main; NetworkDiscovery.Main;
                          NetworkDiscovery.Main; NetworkDiscovery.Main;
                          NetworkDiscovery.Exit 0 never] _
                         ltac:(vm_compute; reflexivity)))).
  now left.
Defined.

(** X15.  When a discovery scan writes 'Scan complete! Found n active
    device(s)', it has joined all its threads, it wrote this line once and no
    cancel line, and n is the number of entries of [hosts_found], which is
    the number of hosts of the range that answer on a probe port or to the
    ping. *)
Theorem completion_line_counts_reachable_hosts :
  forall (tr : transport) (timeout : Q) (hosts : list host)
         (sched : list NetworkDiscovery.action) (s : NetworkDiscovery.state)
         (n : nat),
    NetworkDiscovery._scan_network tr timeout hosts sched = Some s ->
    In (NetworkDiscovery.OutComplete n) (NetworkDiscovery.st_out s) ->
    NetworkDiscovery.st_pc s = NetworkDiscovery.Finished /\
    NetworkDiscovery.st_out s = [NetworkDiscovery.OutComplete n] /\
    n = List.length (NetworkDiscovery.st_results s) /\
    n = List.length (filter (NetworkDiscovery.reachable tr timeout) hosts).
Proof.
  intros tr timeout hosts sched s n H Hin.
  pose proof (scan_reported _ _ _ _ _ H) as Hrep.
  unfold NetworkDiscovery.reported in Hrep.
  destruct (NetworkDiscovery.st_pc s);
    try (rewrite Hrep in Hin; contradiction).
  - destruct Hrep as [Hout|[Hout _]]; rewrite Hout in Hin;
      [contradiction | destruct Hin as [Hin|[]]; discriminate].
  - destruct Hrep as [Hout|[[Hout _]|[Hout Hperm]]]; rewrite Hout in Hin.
    + contradiction.
    + destruct Hin as [Hin|[]]; discriminate.
    + destruct Hin as [Hin|[]]. inversion Hin as [Hn].
      split; [reflexivity|]. split; [now rewrite Hout|].
      split; [reflexivity|].
      rewrite (Permutation_length Hperm), probes_of_reachable.
      apply length_map.
Qed.

Lemma completion_line_counts_reachable_hosts_witness :
  exists s,
    NetworkDiscovery._scan_network Fixtures.only_gateway 1%Q
      Fixtures.two_hosts Fixtures.second_ends_first = Some s /\
    NetworkDiscovery.st_out s = [NetworkDiscovery.OutComplete 1] /\
    1%nat = List.length
              (filter (NetworkDiscovery.reachable Fixtures.only_gateway 1%Q)
                 Fixtures.two_hosts).
Proof.
  eexists. split; [vm_compute; reflexivity|]. split; [reflexivity|].
  apply (completion_line_counts_reachable_hosts Fixtures.only_gateway 1%Q
           Fixtures.two_hosts Fixtures.second_ends_first _ 1%nat
           ltac:(vm_compute; reflexivity)).
  now left.
Defined.

(** X16.  Of its cancel line and its completion line a discovery scan
    writes at most one, and at most once.  The cancel line is written only
    when hosts of the range were left without a thread, and a scan that wrote
    it never writes the completion line. *)
Theorem cancel_line_means_hosts_left :
  forall (tr : transport) (timeout : Q) (hosts : list host)
         (sched : list NetworkDiscovery.action) (s : NetworkDiscovery.state),
    NetworkDiscovery._scan_network tr timeout hosts sched = Some s ->
    (List.length (NetworkDiscovery.st_out s) <= 1)%nat /\
    (In NetworkDiscovery.OutCancelled (NetworkDiscovery.st_out s) ->
     NetworkDiscovery.st_out s = [NetworkDiscovery.OutCancelled] /\
     NetworkDiscovery.st_hosts s <> [] /\
     (NetworkDiscovery.st_pc s = NetworkDiscovery.AtJoin \/
      NetworkDiscovery.st_pc s = NetworkDiscovery.Finished)).
Proof.
  intros tr timeout hosts sched s H.
  pose proof (scan_reported _ _ _ _ _ H) as Hrep.
  unfold NetworkDiscovery.reported in Hrep.
  destruct (NetworkDiscovery.st_pc s).
  - rewrite Hrep. simpl. split; [lia | contradiction].
  - rewrite Hrep. simpl. split; [lia | contradiction].
  - destruct Hrep as [Hout|[Hout [_ Hleft]]]; rewrite Hout; simpl;
      (split; [lia|]); [contradiction | auto].
  - destruct Hrep as [Hout|[[Hout Hleft]|[Hout _]]]; rewrite Hout; simpl;
      (split; [lia|]); [contradiction | auto |].
    intros [Hin|[]]. discriminate.
Qed.

Lemma cancel_line_means_hosts_left_witness :
  exists s,
    NetworkDiscovery._scan_network Fixtures.only_gateway 1%Q
      Fixtures.two_hosts Fixtures.stopped_early = Some s /\
    NetworkDiscovery.st_out s = [NetworkDiscovery.OutCancelled] /\
    NetworkDiscovery.st_hosts s <> [].
Proof.
  eexists. split; [vm_compute; reflexivity|]. split; [reflexivity|].
  apply (proj2 (cancel_line_means_hosts_left Fixtures.only_gateway 1%Q
                  Fixtures.two_hosts Fixtures.stopped_early _
                  ltac:(vm_compute; reflexivity))).
  now left.
Defined.

(** X17.  When [_scan_network] has left its join loop no probe thread is
    running any more, whatever the interleaving and whether or not Stop was
    pressed; and from then on [hosts_found] does not change. *)
Theorem finished_scan_has_no_running_thread :
  forall (tr : transport) (timeout : Q) (hosts : list host)
         (sched : list NetworkDiscovery.action) (s : NetworkDiscovery.state),
    NetworkDiscovery._scan_network tr timeout hosts sched = Some s ->
    NetworkDiscovery.st_pc s = NetworkDiscovery.Finished ->
    NetworkDiscovery.st_alive s = [] /\
    forall sched' s',
      NetworkDiscovery.exec NetworkDiscovery.max_threads tr timeout sched' s
        = Some s' ->
      NetworkDiscovery.st_results s' = NetworkDiscovery.st_results s /\
      NetworkDiscovery.st_pc s' = NetworkDiscovery.Finished.
Proof.
  intros tr timeout hosts sched s H Hpc.
  pose proof (exec_consistent _ tr timeout _ sched _ _
                (init_consistent NetworkDiscovery.max_threads hosts) H) as Hc.
  pose proof (NetworkDiscovery.inv_joined _ _ _ Hc Hpc) as Halive.
  split; [exact Halive|].
  clear H Hc. intros sched'. revert s Hpc Halive.
  induction sched' as [|a sched' IH]; simpl; intros s Hpc Halive s' H.
  - inversion H; subst. auto.
  - destruct a as [|t obs|]; simpl in H.
    + unfold NetworkDiscovery.main_step in H. rewrite Hpc in H. discriminate.
    + unfold NetworkDiscovery.exit_step in H. rewrite Halive in H.
      discriminate.
    + apply IH in H; auto.
Qed.

Lemma finished_scan_has_no_running_thread_witness :
  exists s,
    NetworkDiscovery._scan_network Fixtures.only_gateway 1%Q
      Fixtures.two_hosts Fixtures.second_ends_first = Some s /\
    NetworkDiscovery.st_alive s = [].
Proof.
  eexists. split; [vm_compute; reflexivity|].
  apply (finished_scan_has_no_running_thread Fixtures.only_gateway 1%Q
           Fixtures.two_hosts Fixtures.second_ends_first _
           ltac:(vm_compute; reflexivity) eq_refl).
Defined.

(** X18.  Once Stop was pressed, the scanning thread starts at most one more
    probe thread: the one for the host it had already taken from the
    iterator when the flag was set.  Hosts still in the iterator are never
    probed. *)
Theorem stop_lets_at_most_one_more_thread_start :
  forall (tr : transport) (timeout : Q) (hosts : list host)
         (sched sched' : list NetworkDiscovery.action)
         (s s' : NetworkDiscovery.state),
    NetworkDiscovery._scan_network tr timeout hosts sched = Some s ->
    NetworkDiscovery.st_stop s = true ->
    NetworkDiscovery.exec NetworkDiscovery.max_threads tr timeout sched' s
      = Some s' ->
    (NetworkDiscovery.st_started s'
       <= NetworkDiscovery.st_started s
          + List.length (NetworkDiscovery.pending s))%nat /\
    (List.length (NetworkDiscovery.pending s) <= 1)%nat /\
    NetworkDiscovery.st_stop s' = true.
Proof.
  intros tr timeout hosts sched sched' s s' _ Hstop H.
  assert (Hgen : NetworkDiscovery.st_stop s' = true /\
                 (NetworkDiscovery.st_started s'
                    + List.length (NetworkDiscovery.pending s')
                  <= NetworkDiscovery.st_started s
                     + List.length (NetworkDiscovery.pending s))%nat).
  { revert s Hstop H.
    induction sched' as [|a sched' IH]; simpl; intros s Hstop H.
    - inversion H; subst. auto.
    - destruct (NetworkDiscovery.step NetworkDiscovery.max_threads tr timeout a s)
        as [s1|] eqn:E; [|discriminate].
      destruct (step_after_stop _ tr timeout a s s1 Hstop E) as [Hstop1 Hle].
      destruct (IH s1 Hstop1 H) as [Hs Hle']. split; [exact Hs | lia]. }
  destruct Hgen as [Hs Hle]. split; [lia|]. split; [|exact Hs].
  unfold NetworkDiscovery.pending.
  destruct (NetworkDiscovery.st_pc s); simpl; lia.
Qed.

Lemma stop_lets_at_most_one_more_thread_start_witness :
  exists s s',
    NetworkDiscovery._scan_network Fixtures.accepting 1%Q
      ["10.0.0.1"; "10.0.0.2"; "10.0.0.3"]
      [NetworkDiscovery.Main; NetworkDiscovery.Stop] = Some s /\
    NetworkDiscovery.exec NetworkDiscovery.max_threads Fixtures.accepting 1%Q
      [NetworkDiscovery.Main; NetworkDiscovery.Main;
       NetworkDiscovery.Exit 0 Fixtures.always; NetworkDiscovery.Main] s
      = Some s' /\
    NetworkDiscovery.st_started s = 0%nat /\
    NetworkDiscovery.st_started s' = 1%nat /\
    (NetworkDiscovery.st_started s'
       <= NetworkDiscovery.st_started s
          + List.length (NetworkDiscovery.pending s))%nat.
Proof.
  do 2 eexists.
  split; [vm_compute; reflexivity|]. split; [vm_compute; reflexivity|].
  split; [reflexivity|]. split; [reflexivity|].
  apply (stop_lets_at_most_one_more_thread_start Fixtures.accepting 1%Q
           ["10.0.0.1"; "10.0.0.2"; "10.0.0.3"]
           [NetworkDiscovery.Main; NetworkDiscovery.Stop]
           [NetworkDiscovery.Main; NetworkDiscovery.Main;
            NetworkDiscovery.Exit 0 Fixtures.always; NetworkDiscovery.Main]);
    vm_compute; reflexivity.
Defined.

(** X19.  With a negative timeout no connection attempt of the discovery scan
    can succeed, [settimeout] raising inside the [try] each time: a scan
    that ran to its end unstopped has found exactly the hosts whose ping
    output contains 'Reply from'. *)
Theorem negative_timeout_leaves_only_the_ping :
  forall (tr : transport) (timeout : Q) (hosts : list host)
         (sched : list NetworkDiscovery.action) (s : NetworkDiscovery.state),
    Qle_bool 0%Q timeout = false ->
    NetworkDiscovery._scan_network tr timeout hosts sched = Some s ->
    NetworkDiscovery.st_pc s = NetworkDiscovery.Finished ->
    NetworkDiscovery.st_stop s = false ->
    Permutation (map fst (NetworkDiscovery.st_results s))
                (filter (NetworkDiscovery.ping_replies tr timeout) hosts).
Proof.
  intros tr timeout hosts sched s Ht H Hpc Hstop.
  pose proof (finished_results _ tr timeout hosts sched s H Hpc Hstop) as Hperm.
  rewrite probes_of_reachable in Hperm.
  eapply perm_trans; [apply Permutation_map; exact Hperm|].
  rewrite map_map. simpl. rewrite map_id.
  assert (Heq : forall ip, NetworkDiscovery.reachable tr timeout ip
                           = NetworkDiscovery.ping_replies tr timeout ip).
  { intros ip. destruct (settimeout_negative timeout Ht) as [e He].
    unfold NetworkDiscovery.reachable, NetworkDiscovery.tcp_open.
    rewrite He. reflexivity. }
  rewrite (filter_ext _ _ Heq). reflexivity.
Qed.

Lemma negative_timeout_leaves_only_the_ping_witness :
  exists s,
    NetworkDiscovery._scan_network Fixtures.accepting (-5 # 1)%Q
      Fixtures.two_hosts Fixtures.first_ends_first = Some s /\
    NetworkDiscovery.st_results s = [] /\
    Permutation (map fst (NetworkDiscovery.st_results s))
      (filter (NetworkDiscovery.ping_replies Fixtures.accepting (-5 # 1)%Q)
              Fixtures.two_hosts).
Proof.
  eexists. split; [vm_compute; reflexivity|]. split; [reflexivity|].
  apply (negative_timeout_leaves_only_the_ping Fixtures.accepting (-5 # 1)%Q
           Fixtures.two_hosts Fixtures.first_ends_first);
    vm_compute; reflexivity.
Defined.

(** ** [BaseTool]: further facts *)

Section BaseToolMore.

Import BaseTool.

(** X20.  Calling [run_in_thread] twice in a row, no thread having ended in
    between, starts at most one thread: the second call returns False and
    leaves the tool as the first call left it. *)
Theorem second_run_in_thread_is_refused :
  forall s : tool,
    let s1 := snd (run_in_thread s) in
    is_running s1 = true /\ run_in_thread s1 = (false, s1).
Proof.
  intros s. cbn zeta.
  assert (H : is_running (snd (run_in_thread s)) = true).
  { unfold run_in_thread. destruct (is_running s) eqn:E; [exact E|].
    unfold is_running. simpl. now rewrite Nat.eqb_refl. }
  split; [exact H|]. unfold run_in_thread at 1. now rewrite H.
Qed.

Lemma init_numbered : numbered init.
Proof. constructor; reflexivity. Qed.

Lemma starts_app (l l' : list event) : starts (l ++ l') = (starts l + starts l')%nat.
Proof. unfold starts. now rewrite filter_app, length_app. Qed.

Lemma step_numbered (a : action) (s s' : tool) :
  numbered s -> step a s = Some s' -> numbered s'.
Proof.
  intros [Hs Hw]. destruct a as [| |t]; simpl.
  - unfold run_in_thread. destruct (is_running s); intros H; inversion H;
      subst s'; simpl; [now constructor|].
    constructor; simpl; [|reflexivity].
    rewrite starts_app, Hs. unfold starts. simpl. lia.
  - intros H; inversion H; subst s'. constructor; simpl; [|exact Hw].
    rewrite starts_app, Hs. unfold starts. simpl. lia.
  - destruct (existsb (Nat.eqb t) (alive s)); [|discriminate].
    intros H; inversion H; subst s'. now constructor.
Qed.

Lemma exec_numbered (sched : list action) :
  forall s s', numbered s -> exec sched s = Some s' -> numbered s'.
Proof.
  induction sched as [|a sched IH]; simpl; intros s s' Hs H.
  - inversion H; now subst.
  - destruct (step a s) as [s1|] eqn:E; [|discriminate].
    eapply IH; [|exact H]. eapply step_numbered; eassumption.
Qed.

End BaseToolMore.

(** X21.  In every state a tool reaches, [is_running] is true exactly when
    some thread of the tool is alive, and that thread is then the one
    [worker_thread] holds, which is the thread created last. *)
Theorem is_running_tells_whether_a_thread_is_alive :
  forall (sched : list BaseTool.action) (s : BaseTool.tool),
    BaseTool.exec sched BaseTool.init = Some s ->
    (BaseTool.is_running s = true <-> BaseTool.alive s <> []) /\
    (forall t, In t (BaseTool.alive s) ->
               BaseTool.worker_thread s = Some t /\
               BaseTool.created s = S t).
Proof.
  intros sched s H.
  pose proof (exec_sound sched _ _ init_sound H) as Hs.
  pose proof (exec_numbered sched _ _ init_numbered H) as [_ Hw].
  split.
  - split.
    + intros Hrun Hnil. unfold BaseTool.is_running in Hrun.
      rewrite Hnil in Hrun. destruct (BaseTool.worker_thread s); discriminate.
    + intros Hne. destruct (BaseTool.is_running s) eqn:E; [reflexivity|].
      now apply (not_running_nobody_alive s Hs) in E.
  - intros t Hin. pose proof (BaseTool.snd_alive s Hs t Hin) as Hwt.
    split; [exact Hwt|]. rewrite Hwt in Hw.
    destruct (BaseTool.created s); [discriminate|]. now inversion Hw.
Qed.

Lemma is_running_tells_whether_a_thread_is_alive_witness :
  exists s,
    BaseTool.exec
      [BaseTool.CallRun; BaseTool.ThreadEnds 0; BaseTool.CallStop;
       BaseTool.CallRun] BaseTool.init = Some s /\
    BaseTool.alive s = [1%nat] /\
    BaseTool.is_running s = true.
Proof.
  eexists. split; [vm_compute; reflexivity|]. split; [reflexivity|].
  apply (proj1 (is_running_tells_whether_a_thread_is_alive
                  [BaseTool.CallRun; BaseTool.ThreadEnds 0; BaseTool.CallStop;
                   BaseTool.CallRun] _ ltac:(vm_compute; reflexivity))).
  discriminate.
Defined.
